(** * shapetypes: intersection dispatch and polygon composition

    A shallow embedding of [src/lib/intersection/meta.ts] (the [line], [ray]
    and [polyline] dispatch with its two helpers), of [src/lib/polygon.ts]
    (constructor, [fromCoords], [contains], the boolean operations, [toMulti]
    and [fromGeoJSON]) and of the array type guards of [utilities.ts].

    JavaScript numbers are idealised as exact rationals ([Qc], canonical
    fractions, so that numeric equality is Leibniz equality); NaN, infinities
    and rounding are outside the model.  Code that can throw returns [Res].
    The shape classes other than [Polygon], the pairwise solvers and the
    clipping library are collaborators of the embedded code: they are the
    fields of the class [Collaborators], and every general theorem holds for
    each instance of it.  Further methods of [Polygon] ([closestLoop],
    [closestPoint], [equals]) and the array guards on arbitrary values
    follow the scenes; what they call on the other classes is the class
    [Measures]. *)

From Stdlib Require Import Arith QArith Qcanon List Sorted Permutation String Lia Lqa Bool.
Import ListNotations.
Open Scope Qc_scope.

Set Implicit Arguments.

(* ------------------------------------------------------------------ *)
(** ** Numbers *)

Definition num := Qc.

(** The integer loop index [i] of [polyline], as a number. *)
Definition num_of_nat (i : nat) : num := Q2Qc (inject_Z (Z.of_nat i)).

Definition num_eqb (a b : num) : bool := Qeq_bool a b.
Definition num_leb (a b : num) : bool := Qle_bool a b.
Definition num_ltb (a b : num) : bool := negb (Qle_bool b a).

(** The comparator handed to [Array.prototype.sort]: [(a, b) => a - b]. *)
Definition compareFn (a b : num) : num := a - b.

(** [arr.sort(compareFn)]: a stable sort; [a] stays in front of [b] when
    [compareFn a b <= 0]. *)
Fixpoint sort_insert (a : num) (l : list num) : list num :=
  match l with
  | [] => [a]
  | b :: r => if num_leb (compareFn a b) 0 then a :: b :: r
              else b :: sort_insert a r
  end.

Definition sort (l : list num) : list num := fold_right sort_insert [] l.

(** [[...new Set(arr)]]: the distinct values of [arr], each at the position
    of its first occurrence. *)
Fixpoint uniqueFrom (seen : list num) (l : list num) : list num :=
  match l with
  | [] => []
  | a :: r => if existsb (num_eqb a) seen then uniqueFrom seen r
              else a :: uniqueFrom (a :: seen) r
  end.

Definition unique (l : list num) : list num := uniqueFrom [] l.

(** A parameter on a segment: [0 <= t <= 1]. *)
Definition in01 (t : num) : bool := num_leb 0 t && num_leb t 1.

Definition ascending (l : list num) : Prop := Sorted Qcle l.

(** The same as a test. *)
Fixpoint ascendingb (l : list num) : bool :=
  match l with
  | a :: ((b :: _) as r) => num_leb a b && ascendingb r
  | _ => true
  end.

(** Linear arithmetic on [Qc], through [Q]. *)
Ltac qc_lra :=
  unfold num, compareFn, Qcle, Qclt in *;
  repeat (progress (unfold Qcminus, Qcplus, Qcopp, Qcmult, Q2Qc in *; cbn [this] in *));
  repeat rewrite Qred_correct in *; lra.

(** The two-way merge of two ascending lists (ties take the left list
    first); the reading of "ascending merge" in the list-target property. *)
Fixpoint merge (l1 : list num) : list num -> list num :=
  fix merge_aux (l2 : list num) : list num :=
    match l1, l2 with
    | [], _ => l2
    | _, [] => l1
    | a :: r1, b :: r2 =>
        if num_leb a b then a :: merge r1 l2 else b :: merge_aux r2
    end.

(* ------------------------------------------------------------------ *)
(** ** Exceptions *)

Inductive JsError : Type :=
| RangeError (msg : string)
| Error (msg : string)
| TypeError.

Inductive Res (A : Type) : Type :=
| Ok (a : A)
| Throw (e : JsError).

Arguments Ok {A} a.
Arguments Throw {A} e.

Definition bind {A B : Type} (m : Res A) (k : A -> Res B) : Res B :=
  match m with
  | Ok a => k a
  | Throw e => Throw e
  end.

Notation "x <- m ;; k" := (bind m (fun x => k))
  (at level 61, m at next level, right associativity).

(** A [for ... of] loop whose body may throw and otherwise pushes a whole
    list ([arr.push(...f(a))]). *)
Fixpoint pushEach {A B : Type} (f : A -> Res (list B)) (l : list A) : Res (list B) :=
  match l with
  | [] => Ok []
  | a :: r => here <- f a ;; later <- pushEach f r ;; Ok (here ++ later)
  end.

(* ------------------------------------------------------------------ *)
(** ** Shapes *)

(** [Point]: an (x, y) pair of numbers. *)
Record Point : Type := mkPoint { x : num; y : num }.

(** Modelled from the spec: [Point.equals] (the Point class is not among the
    sources).  Section 3: "Equality is exact; consumers apply tolerance
    externally". *)
Definition Point_equals (p q : Point) : bool :=
  num_eqb (x p) (x q) && num_eqb (y p) (y q).

Inductive CurveOrientation : Type := clockwise | counterclockwise | undefinedOrientation.

Inductive PointContainment : Type := inside | outside | coincident.

Definition PointContainment_eqb (a b : PointContainment) : bool :=
  match a, b with
  | inside, inside | outside, outside | coincident, coincident => true
  | _, _ => false
  end.

(** The solvers' results (section 6): whether there is a hit and the
    parameter of the hit along each participant; the dispatch reads the
    flag and the query's own parameter. *)
Record LineLineResult : Type :=
  { ll_intersects : bool; lineAU : num; lineBU : num }.
Record RayLineResult : Type :=
  { rl_intersects : bool; rayU : num; lineU : num }.
Record RayRayResult : Type :=
  { rr_intersects : bool; rayAU : num; rayBU : num }.
Record CircleResult : Type :=
  { circle_intersects : bool; u : list num }.
Record BoxResult : Type :=
  { box_intersects : bool }.

(** Everything the embedded code calls but does not define. *)
Class Collaborators : Type := {
  Line : Type;
  Ray : Type;
  BoundingBox : Type;
  Circle : Type;
  Rectangle : Type;
  Polyline : Type;
  Ring : Type;
  (* settings *)
  absoluteTolerance : num;
  (* Line, Ray *)
  Line_closestParameter : Line -> Point -> bool -> num;
  Line_pointAt : Line -> num -> bool -> Point;
  Line_boundingBox : Line -> BoundingBox;
  Ray_closestParameter : Ray -> Point -> num;
  Ray_pointAt : Ray -> num -> Point;
  (* Intersection.* solvers; an omitted optional argument is [None] *)
  lineLine : Line -> Line -> LineLineResult;
  rayLine : Ray -> Line -> option bool -> RayLineResult;
  rayRay : Ray -> Ray -> RayRayResult;
  lineCircle : Line -> Circle -> CircleResult;
  rayCircle : Ray -> Circle -> CircleResult;
  lineBox : Line -> BoundingBox -> BoxResult;
  rayBox : Ray -> BoundingBox -> BoxResult;
  (* BoundingBox, Circle, Rectangle *)
  BoundingBox_contains : BoundingBox -> Point -> bool -> num -> bool;
  BoundingBox_overlaps : BoundingBox -> BoundingBox -> bool;
  BoundingBox_toPolyline : BoundingBox -> Polyline;
  Circle_boundingBox : Circle -> BoundingBox;
  Rectangle_boundingBox : Rectangle -> BoundingBox;
  Rectangle_toPolyline : Rectangle -> Polyline;
  (* Polyline *)
  Polyline_boundingBox : Polyline -> BoundingBox;
  Polyline_segments : Polyline -> list Line;
  Polyline_isClosed : Polyline -> bool;
  Polyline_withOrientation : Polyline -> CurveOrientation -> Polyline;
  Polyline_contains : Polyline -> Point -> num -> PointContainment;
  Polyline_fromCoords : Ring -> Polyline;
  Polyline_asGeoJSON : Polyline -> Ring
}.

(* ------------------------------------------------------------------ *)
(** ** polygon.ts *)

Section PolygonClass.
Context {C : Collaborators}.

(** The two private fields of the class. *)
Record Polygon : Type := mkPolygon
  { _boundary : Polyline; _holes : list Polyline }.

Definition Polygon_boundary (p : Polygon) : Polyline := _boundary p.
Definition Polygon_holes (p : Polygon) : list Polyline := _holes p.
Definition Polygon_boundingBox (p : Polygon) : BoundingBox :=
  Polyline_boundingBox (_boundary p).

(** The [for (const hole of holes)] loop of the constructor. *)
Fixpoint newHoles (holes : list Polyline) : Res (list Polyline) :=
  match holes with
  | [] => Ok []
  | hole :: rest =>
      if negb (Polyline_isClosed hole)
      then Throw (Error "Hole must be closed to turn into polygon")
      else hs <- newHoles rest ;;
           Ok (Polyline_withOrientation hole clockwise :: hs)
  end.

(** [new Polygon(boundary, holes)]; an omitted [holes] is [None]. *)
Definition Polygon_new (boundary : Polyline) (holes : option (list Polyline))
  : Res Polygon :=
  if negb (Polyline_isClosed boundary)
  then Throw (Error "Boundary must be closed to turn into polygon")
  else
    let b := Polyline_withOrientation boundary counterclockwise in
    match holes with
    | None => Ok (mkPolygon b [])
    | Some hs => nh <- newHoles hs ;; Ok (mkPolygon b nh)
    end.

(** [Polygon.fromCoords(coordinates)]. *)
Definition Polygon_fromCoords (coordinates : list Ring) : Res Polygon :=
  match coordinates with
  | [] => Throw (RangeError "Coordiante of polygon must have a length")
  | [r0] => Polygon_new (Polyline_fromCoords r0) None
  | r0 :: rest =>
      let boundary := Polyline_fromCoords r0 in
      let holes := map Polyline_fromCoords rest in
      Polygon_new boundary (Some holes)
  end.

(** The hole loop of [contains]. *)
Fixpoint containsHoles (holes : list Polyline) (point : Point) (tolerance : num)
  : PointContainment :=
  match holes with
  | [] => inside
  | hole :: rest =>
      match Polyline_contains hole point tolerance with
      | inside => outside
      | coincident => coincident
      | outside => containsHoles rest point tolerance
      end
  end.

(** [polygon.contains(point, tolerance)]; an omitted tolerance is [None]. *)
Definition Polygon_contains (p : Polygon) (point : Point) (tolerance : option num)
  : PointContainment :=
  let tolerance := match tolerance with Some t => t | None => absoluteTolerance end in
  let boundaryContainment := Polyline_contains (_boundary p) point tolerance in
  if negb (PointContainment_eqb boundaryContainment inside)
  then boundaryContainment
  else containsHoles (_holes p) point tolerance.

(** [polygon.asGeoJSON()]. *)
Definition Polygon_asGeoJSON (p : Polygon) : list Ring :=
  Polyline_asGeoJSON (_boundary p) :: map Polyline_asGeoJSON (_holes p).

(** What [union], [intersection] and [difference] accept. *)
Inductive BooleanInput : Type :=
| InPolyline (p : Polyline)
| InPolygon (p : Polygon)
| InPolylineArray (l : list Polyline)
| InPolygonArray (l : list Polygon).

(** utilities.ts: [isPolylineArray], [isPolygonArray].  Both inputs that are
    arrays pass [value instanceof Array]; the guard then looks at the length
    and at the class of [value[0]] only. *)
Definition isPolylineArray (value : BooleanInput) : bool :=
  match value with
  | InPolylineArray l => if Nat.ltb 0 (List.length l) then true else false
  | InPolygonArray l => if Nat.ltb 0 (List.length l) then false else false
  | InPolyline _ | InPolygon _ => false
  end.

Definition isPolygonArray (value : BooleanInput) : bool :=
  match value with
  | InPolygonArray l => if Nat.ltb 0 (List.length l) then true else false
  | InPolylineArray l => if Nat.ltb 0 (List.length l) then false else false
  | InPolyline _ | InPolygon _ => false
  end.

(** The second argument of the clipping functions: one polygon or a list
    of polygons. *)
Inductive ClipGeom : Type :=
| ClipPolygon (rings : list Ring)
| ClipMulti (polygons : list (list Ring)).

(** [toMulti(input)].  Each guard fixes the class of the elements, which is
    how the loop under it reads [input] as a list of that class. *)
Definition toMulti (input : BooleanInput) : Res ClipGeom :=
  match input with
  | InPolyline p => Ok (ClipPolygon [Polyline_asGeoJSON p])
  | InPolygon p => Ok (ClipPolygon (Polygon_asGeoJSON p))
  | _ =>
      if isPolylineArray input then
        match input with
        | InPolylineArray l =>
            Ok (ClipMulti (map (fun polyline => [Polyline_asGeoJSON polyline]) l))
        | _ => Throw (Error "Couldn't convert geometry for boolean")
        end
      else if isPolygonArray input then
        match input with
        | InPolygonArray l => Ok (ClipMulti (map Polygon_asGeoJSON l))
        | _ => Throw (Error "Couldn't convert geometry for boolean")
        end
      else Throw (Error "Couldn't convert geometry for boolean")
  end.

(** [fromGeoJSON(multi)]. *)
Fixpoint fromGeoJSON (multi : list (list Ring)) : Res (list Polygon) :=
  match multi with
  | [] => Ok []
  | polygon :: rest =>
      if Nat.eqb (List.length polygon) 0 then fromGeoJSON rest
      else p <- Polygon_fromCoords polygon ;;
           outputs <- fromGeoJSON rest ;;
           Ok (p :: outputs)
  end.

(** The conditions the constructor signals for a loop that is not closed. *)
Definition invalidGeometry (e : JsError) : Prop :=
  e = Error "Boundary must be closed to turn into polygon"
  \/ e = Error "Hole must be closed to turn into polygon".

(** Section 4.4 in its own words: the first hole that reports anything but
    "outside" decides; inside a hole is outside the polygon. *)
Definition firstReport (reports : list PointContainment) : option PointContainment :=
  find (fun r => negb (PointContainment_eqb r outside)) reports.

Definition Polygon_contains_spec (p : Polygon) (point : Point) (tolerance : num)
  : PointContainment :=
  match Polyline_contains (Polygon_boundary p) point tolerance with
  | inside =>
      match firstReport (map (fun hole => Polyline_contains hole point tolerance)
                             (Polygon_holes p)) with
      | Some inside => outside
      | Some coincident => coincident
      | Some outside | None => inside
      end
  | notInside => notInside
  end.


Definition hasRings (rings : list Ring) : bool :=
  match rings with [] => false | _ :: _ => true end.

Definition closedRing (r : Ring) : bool := Polyline_isClosed (Polyline_fromCoords r).

(** The clipping library: [union], [intersection] and [difference] of
    polygon-clipping all have this shape. *)
Definition Clip : Type := list Ring -> ClipGeom -> list (list Ring).

Section Boolean.
Variables pcUnion pcIntersection pcDifference : Clip.

Definition Polygon_union (this : Polygon) (joiner : BooleanInput)
  : Res (list Polygon) :=
  let self := Polygon_asGeoJSON this in
  other <- toMulti joiner ;;
  fromGeoJSON (pcUnion self other).

Definition Polygon_intersection (this : Polygon) (intersector : BooleanInput)
  : Res (list Polygon) :=
  let self := Polygon_asGeoJSON this in
  other <- toMulti intersector ;;
  fromGeoJSON (pcIntersection self other).

Definition Polygon_difference (this : Polygon) (subtractor : BooleanInput)
  : Res (list Polygon) :=
  let self := Polygon_asGeoJSON this in
  other <- toMulti subtractor ;;
  fromGeoJSON (pcDifference self other).

End Boolean.

End PolygonClass.

(* ------------------------------------------------------------------ *)
(** ** intersection/meta.ts *)

Section Dispatch.
Context {C : Collaborators}.

(** A target value that is neither an array nor an instance of one of the
    eight shape classes.  The dispatch can observe one thing of it, its
    [boundingBox] property: reading it from [undefined] or [null] throws a
    TypeError; [UBoxed] is a value whose property holds a BoundingBox.
    (A value whose property is missing or holds something else hands
    [BoundingBox.overlaps] an argument outside its type; what that class
    does with it is not in the sources, and such values are left out.) *)
Inductive Unknown : Type :=
| UNullish
| UBoxed (boundingBox : BoundingBox).

(** The targets of the dispatch.  The declared type has no array inside an
    array, but the code recurses on whatever the elements are. *)
#[local] Unset Elimination Schemes.
Inductive Geom : Type :=
| GPoint (p : Point)
| GLine (l : Line)
| GRay (r : Ray)
| GBoundingBox (b : BoundingBox)
| GCircle (c : Circle)
| GRectangle (r : Rectangle)
| GPolyline (p : Polyline)
| GPolygon (p : Polygon)
| GArray (elements : list Geom)
| GOther (v : Unknown).
#[local] Set Elimination Schemes.

(** [linePolyline(theLine, thePolyline)]. *)
Definition linePolyline (theLine : Line) (thePolyline : Polyline) : list num :=
  flat_map (fun edge =>
              let result := lineLine theLine edge in
              if ll_intersects result then [lineAU result] else [])
           (Polyline_segments thePolyline).

(** [rayPolyline(theRay, thePolyline)]. *)
Definition rayPolyline (theRay : Ray) (thePolyline : Polyline) : list num :=
  flat_map (fun edge =>
              let result := rayLine theRay edge None in
              if rl_intersects result then [rayU result] else [])
           (Polyline_segments thePolyline).

(** The [instanceof Polyline] branch of [line]; the BoundingBox and
    Rectangle branches re-enter [line] with [toPolyline()] and land here. *)
Definition line_Polyline (theLine : Line) (otherGeom : Polyline) : list num :=
  let result := lineBox theLine (Polyline_boundingBox otherGeom) in
  sort (if box_intersects result then linePolyline theLine otherGeom else []).

(** The [instanceof Polygon] branch of [line]. *)
Definition line_Polygon (theLine : Line) (otherGeom : Polygon) : list num :=
  let result := lineBox theLine (Polyline_boundingBox (Polygon_boundary otherGeom)) in
  sort (if box_intersects result then
          linePolyline theLine (Polygon_boundary otherGeom)
          ++ flat_map (fun hole =>
                         let holeResult := lineBox theLine (Polyline_boundingBox hole) in
                         if box_intersects holeResult then linePolyline theLine hole
                         else [])
                      (Polygon_holes otherGeom)
        else []).

(** [line(theLine, otherGeom)]. *)
Fixpoint line (theLine : Line) (otherGeom : Geom) : list num :=
  match otherGeom with
  | GArray elements => sort (flat_map (line theLine) elements)
  | GPoint p =>
      let t := Line_closestParameter theLine p true in
      let q := Line_pointAt theLine t true in
      if Point_equals q p then [t] else []
  | GLine l =>
      let result := lineLine theLine l in
      if ll_intersects result then [lineAU result] else []
  | GRay r =>
      let result := rayLine r theLine (Some false) in
      if rl_intersects result then [lineU result] else []
  | GBoundingBox b => line_Polyline theLine (BoundingBox_toPolyline b)
  | GCircle c => u (lineCircle theLine c)
  | GRectangle r => line_Polyline theLine (Rectangle_toPolyline r)
  | GPolyline p => line_Polyline theLine p
  | GPolygon p => line_Polygon theLine p
  | GOther _ => []
  end.

Definition ray_Polyline (theRay : Ray) (otherGeom : Polyline) : list num :=
  let result := rayBox theRay (Polyline_boundingBox otherGeom) in
  sort (if box_intersects result then rayPolyline theRay otherGeom else []).

Definition ray_Polygon (theRay : Ray) (otherGeom : Polygon) : list num :=
  let result := rayBox theRay (Polyline_boundingBox (Polygon_boundary otherGeom)) in
  sort (if box_intersects result then
          rayPolyline theRay (Polygon_boundary otherGeom)
          ++ flat_map (fun hole =>
                         let holeResult := rayBox theRay (Polyline_boundingBox hole) in
                         if box_intersects holeResult then rayPolyline theRay hole
                         else [])
                      (Polygon_holes otherGeom)
        else []).

(** [ray(theRay, otherGeom)]. *)
Fixpoint ray (theRay : Ray) (otherGeom : Geom) : list num :=
  match otherGeom with
  | GArray elements => sort (flat_map (ray theRay) elements)
  | GPoint p =>
      let t := Ray_closestParameter theRay p in
      let q := Ray_pointAt theRay t in
      if Point_equals q p then [t] else []
  | GLine l =>
      let result := rayLine theRay l None in
      if rl_intersects result then [rayU result] else []
  | GRay r =>
      let result := rayRay theRay r in
      if rr_intersects result then [rayAU result] else []
  | GBoundingBox b => ray_Polyline theRay (BoundingBox_toPolyline b)
  | GCircle c => u (rayCircle theRay c)
  | GRectangle r => ray_Polyline theRay (Rectangle_toPolyline r)
  | GPolyline p => ray_Polyline theRay p
  | GPolygon p => ray_Polygon theRay p
  | GOther _ => []
  end.

(** The [for (let i = 0; ...)] loop of [polyline], from index [i] on. *)
Fixpoint segmentLoop (i : nat) (segments : list Line) (otherGeom : Geom)
  : list num :=
  match segments with
  | [] => []
  | edge :: rest =>
      map (fun n => num_of_nat i + n) (line edge otherGeom)
      ++ segmentLoop (S i) rest otherGeom
  end.

(** [polyline] past its fast-reject: loop, [new Set], sort. *)
Definition polylineBody (thePolyline : Polyline) (otherGeom : Geom) : list num :=
  let intersections := segmentLoop 0 (Polyline_segments thePolyline) otherGeom in
  sort (unique intersections).

(** The fast-reject of the last [else if] of [polyline], given the value
    read from [otherGeom.boundingBox]. *)
Definition polylineVsBox (thePolyline : Polyline) (otherGeom : Geom)
  (otherBox : BoundingBox) : Res (list num) :=
  if negb (BoundingBox_overlaps (Polyline_boundingBox thePolyline) otherBox)
  then Ok []
  else Ok (polylineBody thePolyline otherGeom).

(** [polyline(thePolyline, otherGeom)]. *)
Fixpoint polyline (thePolyline : Polyline) (otherGeom : Geom) : Res (list num) :=
  match otherGeom with
  | GArray elements =>
      arrayIntersections <- pushEach (polyline thePolyline) elements ;;
      Ok (sort arrayIntersections)
  | GPoint p =>
      if negb (BoundingBox_contains (Polyline_boundingBox thePolyline) p false
                 absoluteTolerance)
      then Ok []
      else Ok (polylineBody thePolyline otherGeom)
  | GBoundingBox b =>
      if negb (BoundingBox_overlaps (Polyline_boundingBox thePolyline) b)
      then Ok []
      else Ok (polylineBody thePolyline otherGeom)
  | GRay _ => Ok (polylineBody thePolyline otherGeom)
  | GLine l => polylineVsBox thePolyline otherGeom (Line_boundingBox l)
  | GCircle c => polylineVsBox thePolyline otherGeom (Circle_boundingBox c)
  | GRectangle r => polylineVsBox thePolyline otherGeom (Rectangle_boundingBox r)
  | GPolyline p => polylineVsBox thePolyline otherGeom (Polyline_boundingBox p)
  | GPolygon p => polylineVsBox thePolyline otherGeom (Polygon_boundingBox p)
  | GOther UNullish => Throw TypeError
  | GOther (UBoxed b) => polylineVsBox thePolyline otherGeom b
  end.

(** The targets the dispatch is declared for: no [GOther] anywhere. *)
Fixpoint supported (g : Geom) : bool :=
  match g with
  | GArray elements => forallb supported elements
  | GOther _ => false
  | _ => true
  end.

(** Every parameter the per-segment dispatch reports lies on its segment. *)
Definition unitParameters (thePolyline : Polyline) (otherGeom : Geom) : bool :=
  forallb (fun edge => forallb in01 (line edge otherGeom))
          (Polyline_segments thePolyline).

(** A parameter of a polyline with [n] segments: [0 <= p <= n]. *)
Definition withinSegments (thePolyline : Polyline) (p : num) : Prop :=
  0 <= p /\ p <= num_of_nat (List.length (Polyline_segments thePolyline)).

(** Rule 7 as the spec words it: rule 6 on the boundary and on every hole,
    each behind its own fast-reject, concatenated and sorted. *)
Definition lineLoops (theLine : Line) (p : Polygon) : list num :=
  sort (flat_map (fun loop => line theLine (GPolyline loop))
                 (Polygon_boundary p :: Polygon_holes p)).

Definition rayLoops (theRay : Ray) (p : Polygon) : list num :=
  sort (flat_map (fun loop => ray theRay (GPolyline loop))
                 (Polygon_boundary p :: Polygon_holes p)).

End Dispatch.

(* ------------------------------------------------------------------ *)
(** ** An exact instance of the collaborators

    The shape classes and solvers over exact rationals, following sections
    3, 4.1 and 6 of the spec; the scenes below are evaluated on it. *)

Module Exact.

Definition frac (n : Z) (d : positive) : num := Q2Qc (n # d).
Definition int (n : Z) : num := Q2Qc (inject_Z n).
Definition pt (a b : Z) : Point := mkPoint (int a) (int b).

Definition num_min (a b : num) : num := if num_leb a b then a else b.
Definition num_max (a b : num) : num := if num_leb a b then b else a.

(** Points double as vectors. *)
Definition vsub (p q : Point) : Point := mkPoint (x p - x q) (y p - y q).
Definition dot (a b : Point) : num := x a * x b + y a * y b.
Definition cross (a b : Point) : num := x a * y b - y a * x b.

(** Modelled from the spec: the Line class (section 3: a segment whose
    parameter is 0 at the start and 1 at the end). *)
Record XLine : Type := mkLine { from : Point; to : Point }.

(** Modelled from the spec: the Ray class (section 3: a base point and a
    direction, parameter [t >= 0]). *)
Record XRay : Type := mkRay { origin : Point; direction : Point }.

(** Modelled from the spec: the BoundingBox class (section 3: two sorted
    intervals). *)
Record XBox : Type := mkBox { xmin : num; xmax : num; ymin : num; ymax : num }.

(** Modelled from the spec: the Circle class. *)
Record XCircle : Type := mkCircle { center : Point; radius : num }.

(** Modelled from the spec: the Polyline class (section 3: points and a
    closed flag). *)
Record XPolyline : Type := mkPolyline { points : list Point; closed : bool }.

Definition XRing : Type := list (num * num).

Definition clamp01 (t : num) : num :=
  if num_ltb t 0 then 0 else if num_ltb 1 t then 1 else t.

(** Modelled from the spec: [Line.closestParameter] (section 4.2, rule 2);
    the flag keeps the parameter on the segment. *)
Definition XLine_closestParameter (l : XLine) (p : Point) (limitToFiniteSegment : bool)
  : num :=
  let d := vsub (to l) (from l) in
  if num_eqb (dot d d) 0 then 0
  else
    let t := dot (vsub p (from l)) d / dot d d in
    if limitToFiniteSegment then clamp01 t else t.

(** Modelled from the spec: [Line.pointAt] (section 3: the start at 0, the
    end at 1). *)
Definition XLine_pointAt (l : XLine) (t : num) (limitToFiniteSegment : bool) : Point :=
  let t := if limitToFiniteSegment then clamp01 t else t in
  let d := vsub (to l) (from l) in
  mkPoint (x (from l) + t * x d) (y (from l) + t * y d).

(** Modelled from the spec: [Ray.closestParameter] (section 3: [t >= 0]). *)
Definition XRay_closestParameter (r : XRay) (p : Point) : num :=
  let d := direction r in
  if num_eqb (dot d d) 0 then 0
  else
    let t := dot (vsub p (origin r)) d / dot d d in
    if num_ltb t 0 then 0 else t.

(** Modelled from the spec: [Ray.pointAt]. *)
Definition XRay_pointAt (r : XRay) (t : num) : Point :=
  mkPoint (x (origin r) + t * x (direction r)) (y (origin r) + t * y (direction r)).

(** Where [p + t d] meets [q + s e]; nothing when the directions are
    parallel. *)
Definition meet (p d q e : Point) : option (num * num) :=
  let denom := cross d e in
  if num_eqb denom 0 then None
  else Some (cross (vsub q p) e / denom, cross (vsub q p) d / denom).

(** Modelled from the spec: [Intersection.lineLine] (section 6): whether two
    segments meet, and the parameter of the meeting point on each. *)
Definition XlineLine (a b : XLine) : LineLineResult :=
  match meet (from a) (vsub (to a) (from a)) (from b) (vsub (to b) (from b)) with
  | Some (t, s) =>
      if in01 t && in01 s then Build_LineLineResult true t s
      else Build_LineLineResult false 0 0
  | None => Build_LineLineResult false 0 0
  end.

(** Modelled from the spec: [Intersection.rayLine] (section 6); the optional
    flag lets the ray run backwards as well. *)
Definition XrayLine (r : XRay) (l : XLine) (bothSides : option bool) : RayLineResult :=
  match meet (origin r) (direction r) (from l) (vsub (to l) (from l)) with
  | Some (t, s) =>
      let onRay := match bothSides with Some true => true | _ => num_leb 0 t end in
      if onRay && in01 s then Build_RayLineResult true t s
      else Build_RayLineResult false 0 0
  | None => Build_RayLineResult false 0 0
  end.

(** Modelled from the spec: [Intersection.rayRay] (section 6). *)
Definition XrayRay (a b : XRay) : RayRayResult :=
  match meet (origin a) (direction a) (origin b) (direction b) with
  | Some (t, s) =>
      if num_leb 0 t && num_leb 0 s then Build_RayRayResult true t s
      else Build_RayRayResult false 0 0
  | None => Build_RayRayResult false 0 0
  end.

(** The square root of a rational that has a rational one. *)
Definition exactSqrt (q : num) : option num :=
  let n := Qnum q in
  let d := Qden q in
  if (0 <=? n)%Z && (Z.sqrt n * Z.sqrt n =? n)%Z
     && (Pos.sqrt d * Pos.sqrt d =? d)%positive
  then Some (Q2Qc (Z.sqrt n # Pos.sqrt d))
  else None.

(** The roots of [|f + t d| = radius], ascending.  An irrational root is no
    value of [num]: the instance then reports no hit, and no scene below
    has such a circle. *)
Definition circleRoots (f d : Point) (radius : num) : list num :=
  let a := dot d d in
  let b := int 2 * dot f d in
  let c := dot f f - radius * radius in
  let disc := b * b - int 4 * a * c in
  if num_eqb a 0 then []
  else match exactSqrt disc with
       | None => []
       | Some s =>
           if num_eqb s 0 then [- b / (int 2 * a)]
           else [(- b - s) / (int 2 * a); (- b + s) / (int 2 * a)]
       end.

(** Modelled from the spec: [Intersection.lineCircle] (sections 4.2 and 6:
    0, 1 or 2 parameters along the segment). *)
Definition XlineCircle (l : XLine) (c : XCircle) : CircleResult :=
  let hits := filter in01
                (circleRoots (vsub (from l) (center c)) (vsub (to l) (from l)) (radius c)) in
  Build_CircleResult (negb (Nat.eqb (List.length hits) 0)) hits.

(** Modelled from the spec: [Intersection.rayCircle]. *)
Definition XrayCircle (r : XRay) (c : XCircle) : CircleResult :=
  let hits := filter (num_leb 0)
                (circleRoots (vsub (origin r) (center c)) (direction r) (radius c)) in
  Build_CircleResult (negb (Nat.eqb (List.length hits) 0)) hits.

(** A range of parameters; [None] is an infinite end. *)
Record Span : Type := mkSpan { lower : option num; upper : option num; empty : bool }.

Definition wholeSpan : Span := mkSpan None None false.
Definition noSpan : Span := mkSpan None None true.

(** The parameters [t] with [lo <= p + t d <= hi]. *)
Definition slab (p d lo hi : num) : Span :=
  if num_eqb d 0 then
    if num_leb lo p && num_leb p hi then wholeSpan else noSpan
  else
    let t1 := (lo - p) / d in
    let t2 := (hi - p) / d in
    mkSpan (Some (num_min t1 t2)) (Some (num_max t1 t2)) false.

Definition meetSpan (a b : Span) : Span :=
  let lo := match lower a, lower b with
            | Some s, Some t => Some (num_max s t)
            | Some s, None | None, Some s => Some s
            | None, None => None
            end in
  let hi := match upper a, upper b with
            | Some s, Some t => Some (num_min s t)
            | Some s, None | None, Some s => Some s
            | None, None => None
            end in
  let crossed := match lo, hi with
                 | Some s, Some t => negb (num_leb s t)
                 | _, _ => false
                 end in
  mkSpan lo hi (empty a || empty b || crossed).

(** Modelled from the spec: [Intersection.lineBox] (section 4.2, rule 6:
    whether the line's infinite extent enters the box). *)
Definition XlineBox (l : XLine) (b : XBox) : BoxResult :=
  let d := vsub (to l) (from l) in
  let s := meetSpan (slab (x (from l)) (x d) (xmin b) (xmax b))
                    (slab (y (from l)) (y d) (ymin b) (ymax b)) in
  Build_BoxResult (negb (empty s)).

(** Modelled from the spec: [Intersection.rayBox]. *)
Definition XrayBox (r : XRay) (b : XBox) : BoxResult :=
  let d := direction r in
  let s := meetSpan (mkSpan (Some 0) None false)
             (meetSpan (slab (x (origin r)) (x d) (xmin b) (xmax b))
                       (slab (y (origin r)) (y d) (ymin b) (ymax b))) in
  Build_BoxResult (negb (empty s)).

(** Modelled from the spec: [BoundingBox.contains] (section 4.1). *)
Definition XBox_contains (b : XBox) (p : Point) (strict : bool) (tolerance : num) : bool :=
  if strict then
    num_ltb (xmin b + tolerance) (x p) && num_ltb (x p) (xmax b - tolerance)
    && num_ltb (ymin b + tolerance) (y p) && num_ltb (y p) (ymax b - tolerance)
  else
    num_leb (xmin b - tolerance) (x p) && num_leb (x p) (xmax b + tolerance)
    && num_leb (ymin b - tolerance) (y p) && num_leb (y p) (ymax b + tolerance).

(** Modelled from the spec: [BoundingBox.overlaps] (section 4.1: both
    intervals overlap; touching counts). *)
Definition XBox_overlaps (a b : XBox) : bool :=
  num_leb (xmin a) (xmax b) && num_leb (xmin b) (xmax a)
  && num_leb (ymin a) (ymax b) && num_leb (ymin b) (ymax a).

(** Modelled from the spec: [BoundingBox.toPolyline] (section 4.1: the
    corners (min,min), (max,min), (max,max), (min,max), closed). *)
Definition XBox_toPolyline (b : XBox) : XPolyline :=
  mkPolyline [mkPoint (xmin b) (ymin b); mkPoint (xmax b) (ymin b);
              mkPoint (xmax b) (ymax b); mkPoint (xmin b) (ymax b)] true.

(** The smallest box around some points. *)
Definition boxOfPoints (ps : list Point) : XBox :=
  match ps with
  | [] => mkBox 0 0 0 0
  | p :: rest =>
      fold_left (fun b q => mkBox (num_min (xmin b) (x q)) (num_max (xmax b) (x q))
                                  (num_min (ymin b) (y q)) (num_max (ymax b) (y q)))
                rest (mkBox (x p) (x p) (y p) (y p))
  end.

(** Modelled from the spec: the [boundingBox] of a Line, of a Circle and of
    a Polyline (section 4.2, rule 8: the target's box). *)
Definition XLine_boundingBox (l : XLine) : XBox := boxOfPoints [from l; to l].

Definition XCircle_boundingBox (c : XCircle) : XBox :=
  mkBox (x (center c) - radius c) (x (center c) + radius c)
        (y (center c) - radius c) (y (center c) + radius c).

Definition XPolyline_boundingBox (p : XPolyline) : XBox := boxOfPoints (points p).

(** Consecutive pairs of points. *)
Fixpoint pairs (ps : list Point) : list XLine :=
  match ps with
  | a :: ((b :: _) as rest) => mkLine a b :: pairs rest
  | _ => []
  end.

(** Modelled from the spec: [Polyline.segments] (section 3: one Line per
    consecutive pair, wrapping if closed). *)
Definition XPolyline_segments (p : XPolyline) : list XLine :=
  match points p with
  | [] => []
  | first :: _ =>
      if closed p then pairs (points p ++ [first]) else pairs (points p)
  end.

(** Twice the signed area (shoelace formula). *)
Definition shoelace (p : XPolyline) : num :=
  fold_right (fun s acc => cross (from s) (to s) + acc) 0 (XPolyline_segments p).

(** Modelled from the spec: [Polyline.orientation] (section 8: the sign of
    the shoelace area, the y axis pointing up). *)
Definition XPolyline_orientation (p : XPolyline) : CurveOrientation :=
  let a := shoelace p in
  if num_ltb 0 a then counterclockwise
  else if num_ltb a 0 then clockwise
  else undefinedOrientation.

Definition CurveOrientation_eqb (a b : CurveOrientation) : bool :=
  match a, b with
  | clockwise, clockwise | counterclockwise, counterclockwise
  | undefinedOrientation, undefinedOrientation => true
  | _, _ => false
  end.

(** Modelled from the spec: [Polyline.withOrientation] (section 3: the
    winding is forced; a loop without area has none to force). *)
Definition XPolyline_withOrientation (p : XPolyline) (goal : CurveOrientation) : XPolyline :=
  let o := XPolyline_orientation p in
  if CurveOrientation_eqb o goal || CurveOrientation_eqb o undefinedOrientation then p
  else mkPolyline (rev (points p)) (closed p).

Definition distance2 (p q : Point) : num := dot (vsub p q) (vsub p q).

(** Modelled from the spec: [Polyline.contains] (section 4.4: the loop's
    own containment predicate; even-odd rule, coincident within the
    tolerance of an edge). *)
Definition XPolyline_contains (p : XPolyline) (q : Point) (tolerance : num)
  : PointContainment :=
  let segs := XPolyline_segments p in
  let near s :=
    num_leb (distance2 q (XLine_pointAt s (XLine_closestParameter s q true) true))
            (tolerance * tolerance) in
  let crosses s :=
    let a := from s in
    let b := to s in
    negb (Bool.eqb (num_ltb (y q) (y a)) (num_ltb (y q) (y b)))
    && num_ltb (x q) (x a + (x b - x a) * (y q - y a) / (y b - y a)) in
  if existsb near segs then coincident
  else if Nat.odd (List.length (filter crosses segs)) then inside
  else outside.

Definition samePoint (a b : num * num) : bool :=
  num_eqb (fst a) (fst b) && num_eqb (snd a) (snd b).

(** Modelled from the spec: [Polyline.fromCoords] (section 6: a ring is a
    closed loop of coordinates, its first pair repeated at the end). *)
Definition XPolyline_fromCoords (r : XRing) : XPolyline :=
  let ps := map (fun c => mkPoint (fst c) (snd c)) r in
  match r with
  | first :: _ :: _ :: _ =>
      if samePoint first (last r first) then mkPolyline (removelast ps) true
      else mkPolyline ps false
  | _ => mkPolyline ps false
  end.

(** Modelled from the spec: [Polyline.asGeoJSON]. *)
Definition XPolyline_asGeoJSON (p : XPolyline) : XRing :=
  let cs := map (fun q => (x q, y q)) (points p) in
  match cs with
  | first :: _ => if closed p then cs ++ [first] else cs
  | [] => []
  end.

(** The instance.  Its rectangles are axis-aligned (a Rectangle is its box)
    and its tolerance is the default 0.001 of section 9. *)
#[export] Instance exact : Collaborators := {|
  Line := XLine;
  Ray := XRay;
  BoundingBox := XBox;
  Circle := XCircle;
  Rectangle := XBox;
  Polyline := XPolyline;
  Ring := XRing;
  absoluteTolerance := frac 1 1000;
  Line_closestParameter := XLine_closestParameter;
  Line_pointAt := XLine_pointAt;
  Line_boundingBox := XLine_boundingBox;
  Ray_closestParameter := XRay_closestParameter;
  Ray_pointAt := XRay_pointAt;
  lineLine := XlineLine;
  rayLine := XrayLine;
  rayRay := XrayRay;
  lineCircle := XlineCircle;
  rayCircle := XrayCircle;
  lineBox := XlineBox;
  rayBox := XrayBox;
  BoundingBox_contains := XBox_contains;
  BoundingBox_overlaps := XBox_overlaps;
  BoundingBox_toPolyline := XBox_toPolyline;
  Circle_boundingBox := XCircle_boundingBox;
  Rectangle_boundingBox := fun r => r;
  Rectangle_toPolyline := XBox_toPolyline;
  Polyline_boundingBox := XPolyline_boundingBox;
  Polyline_segments := XPolyline_segments;
  Polyline_isClosed := closed;
  Polyline_withOrientation := XPolyline_withOrientation;
  Polyline_contains := XPolyline_contains;
  Polyline_fromCoords := XPolyline_fromCoords;
  Polyline_asGeoJSON := XPolyline_asGeoJSON
|}.

End Exact.

(* ------------------------------------------------------------------ *)
(** ** Scenes *)

Module Scenes.
Import Exact.

(** The axis-aligned square with corners (a, b) and (c, d), counter-clockwise. *)
Definition square (a b c d : Z) : XPolyline :=
  mkPolyline [pt a b; pt c b; pt c d; pt a d] true.

(** The square as the constructor stores a hole: clockwise. *)
Definition squareCW (a b c d : Z) : XPolyline :=
  mkPolyline [pt a d; pt c d; pt c b; pt a b] true.

(** A 4x4 boundary with a 2x2 hole that lies outside it; the constructor
    checks closure only, so the polygon exists. *)
Definition farPolygon : Polygon := mkPolygon (square 0 0 4 4) [squareCW 10 10 12 12].

(** A horizontal segment and a ray through the far hole, above the
    boundary's box. *)
Definition farLine : XLine := mkLine (pt 9 11) (pt 13 11).
Definition farRay : XRay := mkRay (pt 9 11) (pt 1 0).

(** The same hole with a boundary around it: a nested polygon. *)
Definition nestedPolygon : Polygon := mkPolygon (square 8 8 14 14) [squareCW 10 10 12 12].

(** A closed triangle: three segments. *)
Definition triangle : XPolyline := mkPolyline [pt 0 0; pt 4 0; pt 0 4] true.

(** Section 8: the 4x4 square with the hole (1,1)-(3,3). *)
Definition holedSquare : Polygon := mkPolygon (square 0 0 4 4) [squareCW 1 1 3 3].

(** Section 8: the line from (-1,1) to (5,1) and the 4x4 box. *)
Definition crossingLine : XLine := mkLine (pt (-1) 1) (pt 5 1).
Definition box4 : XBox := mkBox (int 0) (int 4) (int 0) (int 4).

Definition diameterRay : XRay := mkRay (pt (-5) 0) (pt 1 0).

(** The targets above, as targets of the dispatch on this instance. *)
Definition boxTarget : Geom (C := exact) := GBoundingBox box4.

(** An open polyline: it cannot bound a polygon. *)
Definition openPath : XPolyline := mkPolyline [pt 0 0; pt 4 0; pt 0 4] false.

Definition ringOf (cs : list (Z * Z)) : XRing :=
  map (fun c => (int (fst c), int (snd c))) cs.

(** Section 8: the L-shaped hexagon left of the 4x4 square by the square
    offset by (2,2), as one ring; it is wound clockwise here, so that the
    constructor has to turn it. *)
Definition hexagonRing : XRing :=
  ringOf [(0, 0); (0, 4); (2, 4); (2, 2); (4, 2); (4, 0); (0, 0)]%Z.

(** Scene data: the answer of the clipping library for that difference,
    with a piece without rings put in front of it. *)
Definition sceneDifference : Clip (C := exact) :=
  fun _ _ => [[]; [hexagonRing]].

Definition offsetSquare : Polygon := mkPolygon (square 2 2 6 6) [].
Definition plainSquare : Polygon := mkPolygon (square 0 0 4 4) [].


End Scenes.

(* ------------------------------------------------------------------ *)
(** ** utilities.ts *)

Module Utilities.
Section Guards.
Context {C : Collaborators}.

(** The guards take [value: any]: the values they can tell apart. *)
#[local] Unset Elimination Schemes.
Inductive JsValue : Type :=
| VNumber (n : num)
| VPoint (p : Point)
| VPolyline (p : Polyline)
| VPolygon (p : Polygon)
| VArray (elements : list JsValue)
| VOther.
#[local] Set Elimination Schemes.

(** [value[0] instanceof Point] and its three siblings. *)
Definition instanceofPoint (v : option JsValue) : bool :=
  match v with Some (VPoint _) => true | _ => false end.
Definition typeofNumber (v : option JsValue) : bool :=
  match v with Some (VNumber _) => true | _ => false end.
Definition instanceofPolyline (v : option JsValue) : bool :=
  match v with Some (VPolyline _) => true | _ => false end.
Definition instanceofPolygon (v : option JsValue) : bool :=
  match v with Some (VPolygon _) => true | _ => false end.

(** [isPointArray(value)]. *)
Definition isPointArray (value : JsValue) : bool :=
  match value with
  | VArray elements =>
      if Nat.ltb 0 (List.length elements) then
        if instanceofPoint (nth_error elements 0) then true else false
      else false
  | _ => false
  end.

(** [isNumberArray(value)]. *)
Definition isNumberArray (value : JsValue) : bool :=
  match value with
  | VArray elements =>
      if Nat.ltb 0 (List.length elements) then
        if typeofNumber (nth_error elements 0) then true else false
      else false
  | _ => false
  end.

(** [isPolylineArray(value)]. *)
Definition isPolylineArray (value : JsValue) : bool :=
  match value with
  | VArray elements =>
      if Nat.ltb 0 (List.length elements) then
        if instanceofPolyline (nth_error elements 0) then true else false
      else false
  | _ => false
  end.

(** [isPolygonArray(value)]. *)
Definition isPolygonArray (value : JsValue) : bool :=
  match value with
  | VArray elements =>
      if Nat.ltb 0 (List.length elements) then
        if instanceofPolygon (nth_error elements 0) then true else false
      else false
  | _ => false
  end.

(** The operands of the boolean operations, as the values they are. *)
Definition valueOf (input : BooleanInput) : JsValue :=
  match input with
  | InPolyline p => VPolyline p
  | InPolygon p => VPolygon p
  | InPolylineArray l => VArray (map VPolyline l)
  | InPolygonArray l => VArray (map VPolygon l)
  end.

End Guards.
End Utilities.

(* ------------------------------------------------------------------ *)
(** ** polygon.ts: the remaining methods *)

(** What these methods call on the other classes. *)
Class Measures {C : Collaborators} : Type := {
  Polyline_equals : Polyline -> Polyline -> bool;
  Polyline_closestPoint : Polyline -> Point -> Point;
  Point_distanceTo : Point -> Point -> num;
  BoundingBox_closestPoint : BoundingBox -> Point -> bool -> Point
}.

Section PolygonMethods.
Context {C : Collaborators} {M : Measures}.

(** The body of the loop of [closestLoop]; the state is [closestLength]
    ([None] while undefined) and [closestLoop]. *)
Definition closestLoopStep (targetPoint : Point) (state : option num * Polyline)
  (polyline : Polyline) : option num * Polyline :=
  let test := Polyline_closestPoint polyline targetPoint in
  let length := Point_distanceTo targetPoint test in
  match fst state with
  | None => (Some length, polyline)
  | Some closestLength =>
      if num_ltb length closestLength then (Some length, polyline) else state
  end.

(** [polygon.closestLoop(targetPoint)]. *)
Definition Polygon_closestLoop (p : Polygon) (targetPoint : Point) : Polyline :=
  snd (fold_left (closestLoopStep targetPoint)
                 (Polygon_boundary p :: Polygon_holes p)
                 (None, _boundary p)).

(** The body of the loop of [closestPoint]; the state is [closestLength]
    and [closestPoint]. *)
Definition closestPointStep (targetPoint : Point) (state : option num * Point)
  (polyline : Polyline) : option num * Point :=
  let skip :=
    match fst state with
    | Some closestLength =>
        let closestBB :=
          BoundingBox_closestPoint (Polyline_boundingBox polyline) targetPoint true in
        let lengthBB := Point_distanceTo targetPoint closestBB in
        num_ltb closestLength lengthBB
    | None => false
    end in
  if skip then state
  else
    let test := Polyline_closestPoint polyline targetPoint in
    let length := Point_distanceTo targetPoint test in
    match fst state with
    | None => (Some length, test)
    | Some closestLength =>
        if num_ltb length closestLength then (Some length, test) else state
    end.

(** [polygon.closestPoint(targetPoint)]. *)
Definition Polygon_closestPoint (p : Polygon) (targetPoint : Point) : Point :=
  if PointContainment_eqb (Polygon_contains p targetPoint None) inside
  then targetPoint
  else snd (fold_left (closestPointStep targetPoint)
                      (_boundary p :: _holes p)
                      (None, targetPoint)).

(** [holes.every((hole, index) => hole.equals(other.holes[index]))], from
    [index] on.  [None] stands for a run that hands [undefined] to
    [Polyline.equals], which this model does not follow further. *)
Fixpoint everyEquals (index : nat) (holes otherHoles : list Polyline) : option bool :=
  match holes with
  | [] => Some true
  | hole :: rest =>
      match nth_error otherHoles index with
      | None => None
      | Some other =>
          if Polyline_equals hole other then everyEquals (S index) rest otherHoles
          else Some false
      end
  end.

(** [polygon.equals(otherPolygon)]. *)
Definition Polygon_equals (p otherPolygon : Polygon) : option bool :=
  if negb (Nat.eqb (List.length (_holes p)) (List.length (Polygon_holes otherPolygon)))
  then Some false
  else if negb (Polyline_equals (_boundary p) (Polygon_boundary otherPolygon))
  then Some false
  else everyEquals 0 (_holes p) (Polygon_holes otherPolygon).

(** The distance from a point to a loop, and to the loop's bounding box, as
    [closestLoop] and [closestPoint] measure them. *)
Definition loopDistance (targetPoint : Point) (loop : Polyline) : num :=
  Point_distanceTo targetPoint (Polyline_closestPoint loop targetPoint).

Definition boxDistance (targetPoint : Point) (loop : Polyline) : num :=
  Point_distanceTo targetPoint
    (BoundingBox_closestPoint (Polyline_boundingBox loop) targetPoint true).

(** No loop of the polygon is nearer to the point than its bounding box. *)
Definition boxesBound (p : Polygon) (targetPoint : Point) : bool :=
  forallb (fun loop => num_leb (boxDistance targetPoint loop)
                               (loopDistance targetPoint loop))
          (_boundary p :: _holes p).

End PolygonMethods.

Section PolygonNotions.
Context {C : Collaborators}.

(** A loop that comes back from its ring as it went, closed. *)
Definition survivesGeoJSON (loop : Polyline) : Prop :=
  Polyline_fromCoords (Polyline_asGeoJSON loop) = loop
  /\ Polyline_isClosed loop = true.

(** A polygon whose loops the constructor's orientation step leaves alone. *)
Definition canonical (p : Polygon) : Prop :=
  Polyline_withOrientation (_boundary p) counterclockwise = _boundary p
  /\ Forall (fun hole => Polyline_withOrientation hole clockwise = hole) (_holes p).

End PolygonNotions.

(* ------------------------------------------------------------------ *)
(** ** Notions for the further properties of the dispatch *)

Section DispatchNotions.
Context {C : Collaborators}.

(** [undefined] or [null] somewhere in a target. *)
Fixpoint hasNullish (g : Geom) : bool :=
  match g with
  | GArray elements => existsb hasNullish elements
  | GOther UNullish => true
  | _ => false
  end.

Definition isArray (g : Geom) : bool :=
  match g with GArray _ => true | _ => false end.

(** The hits of a line on the segments of a loop, wherever its box is. *)
Definition lineHits (theLine : Line) (loop : Polyline) (t : num) : Prop :=
  exists edge,
    In edge (Polyline_segments loop)
    /\ ll_intersects (lineLine theLine edge) = true
    /\ lineAU (lineLine theLine edge) = t.

Definition rayHits (theRay : Ray) (loop : Polyline) (t : num) : Prop :=
  exists edge,
    In edge (Polyline_segments loop)
    /\ rl_intersects (rayLine theRay edge None) = true
    /\ rayU (rayLine theRay edge None) = t.

(** The fast-reject of a loop is sound for a line: when the box is missed,
    no segment is hit. *)
Definition rejectSound (theLine : Line) (loop : Polyline) : bool :=
  box_intersects (lineBox theLine (Polyline_boundingBox loop))
  || forallb (fun edge => negb (ll_intersects (lineLine theLine edge)))
             (Polyline_segments loop).

(** The holes' boxes lie behind the boundary's: a line that misses the
    boundary's box misses every hole's. *)
Definition boxesNested (theLine : Line) (p : Polygon) : bool :=
  box_intersects (lineBox theLine (Polyline_boundingBox (Polygon_boundary p)))
  || forallb (fun hole =>
                negb (box_intersects (lineBox theLine (Polyline_boundingBox hole))))
             (Polygon_holes p).

(** The offsets the loop of [polyline] pushes: segment index plus the
    segment's own parameter. *)
Definition offsetHit (thePolyline : Polyline) (otherGeom : Geom) (p : num) : Prop :=
  exists i edge t,
    nth_error (Polyline_segments thePolyline) i = Some edge
    /\ In t (line edge otherGeom)
    /\ p = num_of_nat i + t.

End DispatchNotions.

(* ------------------------------------------------------------------ *)
(** ** The exact instance, continued *)

Module ExactMeasures.
Import Exact.

Fixpoint samePoints (a b : list Point) : bool :=
  match a, b with
  | [], [] => true
  | p :: r, q :: s => Point_equals p q && samePoints r s
  | _, _ => false
  end.

(** Modelled from the spec: [Polyline.equals] (section 3: the same points
    and the same flag). *)
Definition XPolyline_equals (a b : XPolyline) : bool :=
  Bool.eqb (closed a) (closed b) && samePoints (points a) (points b).

(** The nearer of two candidates; the first stays on a tie. *)
Definition nearer (q a b : Point) : Point :=
  if num_ltb (distance2 q b) (distance2 q a) then b else a.

(** Modelled from the spec: [Polyline.closestPoint]: the point of the
    polyline's segments nearest to the target. *)
Definition XPolyline_closestPoint (p : XPolyline) (q : Point) : Point :=
  match map (fun s => XLine_pointAt s (XLine_closestParameter s q true) true)
            (XPolyline_segments p) with
  | [] => match points p with first :: _ => first | [] => q end
  | c :: cs => fold_left (nearer q) cs c
  end.

(** Modelled from the spec: [Point.distanceTo]: the Euclidean distance.  It
    is exact when it is a rational number; an irrational distance is
    rounded down to a multiple of 1/(1000 d), [d] the denominator of its
    square. *)
Definition XPoint_distanceTo (p q : Point) : num :=
  let s := distance2 p q in
  Q2Qc (Z.sqrt (Qnum s * Zpos (Qden s) * 1000000) # (Qden s * 1000)).

Definition clamp (lo hi v : num) : num :=
  if num_ltb v lo then lo else if num_ltb hi v then hi else v.

(** Modelled from the spec: [BoundingBox.closestPoint] (section 4.1: the
    point clamped to the box; without the interior, a point inside goes to
    the nearest edge). *)
Definition XBox_closestPoint (b : XBox) (q : Point) (includeInterior : bool) : Point :=
  let c := mkPoint (clamp (xmin b) (xmax b) (x q)) (clamp (ymin b) (ymax b) (y q)) in
  if includeInterior || negb (Point_equals c q) then c
  else
    let left := x q - xmin b in
    let right := xmax b - x q in
    let down := y q - ymin b in
    let up := ymax b - y q in
    let least := num_min (num_min left right) (num_min down up) in
    if num_eqb least left then mkPoint (xmin b) (y q)
    else if num_eqb least right then mkPoint (xmax b) (y q)
    else if num_eqb least down then mkPoint (x q) (ymin b)
    else mkPoint (x q) (ymax b).

#[export] Instance exactMeasures : Measures (C := exact) := {|
  Polyline_equals := XPolyline_equals;
  Polyline_closestPoint := XPolyline_closestPoint;
  Point_distanceTo := XPoint_distanceTo;
  BoundingBox_closestPoint := XBox_closestPoint
|}.

End ExactMeasures.

(** A second instance: the exact one, but with circle solvers that list
    the far hit before the near one.  Section 6 asks of these solvers the
    parameters of the hits and fixes no order among them. *)
Module Descending.
Import Exact.





End Descending.

Module MoreScenes.
Import Exact ExactMeasures Scenes.

(** An 8x8 square with two holes, (1,1)-(3,3) and (5,5)-(6,6). *)
Definition twoHoles : Polygon :=
  mkPolygon (square 0 0 8 8) [squareCW 1 1 3 3; squareCW 5 5 6 6].

(** A vertical segment that crosses the triangle's base and its hypotenuse. *)
Definition verticalLine : XLine := mkLine (pt 1 (-1)) (pt 1 5).

Definition lineTarget : Geom (C := exact) := GLine crossingLine.
Definition verticalTarget : Geom (C := exact) := GLine verticalLine.
Definition pointTarget : Geom (C := exact) := GPoint (pt 0 0).
Definition triangleTarget : Geom (C := exact) := GPolyline triangle.
Definition rayTarget : Geom (C := exact) := GRay diameterRay.


(** Scene data: a clipping result whose one ring does not come back to its
    start. *)
Definition openRingClip : Clip (C := exact) :=
  fun _ _ => [[ringOf [(0, 0); (4, 0); (0, 4)]%Z]].

End MoreScenes.

(* ------------------------------------------------------------------ *)
(** ** Sorting and deduplication *)

Lemma num_leb_le (a b : num) : num_leb a b = true <-> a <= b.
Proof. unfold num_leb. rewrite Qle_bool_iff. reflexivity. Qed.

Lemma num_leb_gt (a b : num) : num_leb a b = false -> b <= a.
Proof.
  intros H. destruct (Qclt_le_dec a b) as [Hlt | Hle]; [ | exact Hle].
  apply Qclt_le_weak, num_leb_le in Hlt. congruence.
Qed.

Lemma num_eqb_eq (a b : num) : num_eqb a b = true <-> a = b.
Proof.
  unfold num_eqb. rewrite Qeq_bool_iff. split.
  - apply Qc_is_canon.
  - intros ->. reflexivity.
Qed.

Lemma compareFn_le (a b : num) : num_leb (compareFn a b) 0 = true <-> a <= b.
Proof. rewrite num_leb_le. split; intros H; qc_lra. Qed.

Lemma compareFn_gt (a b : num) : num_leb (compareFn a b) 0 = false -> b <= a.
Proof. intros H. apply num_leb_gt in H. qc_lra. Qed.

Lemma sort_insert_perm (a : num) (l : list num) :
  Permutation (a :: l) (sort_insert a l).
Proof.
  induction l as [ | b r IH]; simpl.
  - apply Permutation_refl.
  - destruct (num_leb (compareFn a b) 0).
    + apply Permutation_refl.
    + eapply perm_trans; [apply perm_swap | apply perm_skip, IH].
Qed.

Lemma sort_perm (l : list num) : Permutation l (sort l).
Proof.
  induction l as [ | a r IH]; simpl.
  - apply perm_nil.
  - eapply perm_trans; [apply perm_skip, IH | apply sort_insert_perm].
Qed.

Lemma sort_insert_hd (a b : num) (l : list num) :
  b <= a -> HdRel Qcle b l -> HdRel Qcle b (sort_insert a l).
Proof.
  intros Hba Hl. destruct l as [ | c r]; simpl.
  - constructor. exact Hba.
  - destruct (num_leb (compareFn a c) 0); constructor.
    + exact Hba.
    + inversion Hl; assumption.
Qed.

Lemma sort_insert_ascending (a : num) (l : list num) :
  ascending l -> ascending (sort_insert a l).
Proof.
  unfold ascending. induction 1 as [ | b r Hr IH Hb]; simpl.
  - repeat constructor.
  - destruct (num_leb (compareFn a b) 0) eqn:E.
    + apply compareFn_le in E. repeat constructor; assumption.
    + apply compareFn_gt in E. constructor; [exact IH | ].
      apply sort_insert_hd; assumption.
Qed.

Lemma sort_ascending (l : list num) : ascending (sort l).
Proof.
  induction l as [ | a r IH]; simpl.
  - constructor.
  - apply sort_insert_ascending, IH.
Qed.

Lemma ascending_strong (l : list num) : ascending l -> StronglySorted Qcle l.
Proof.
  apply Sorted_StronglySorted. intros a b c. apply Qcle_trans.
Qed.

(** An ascending list is determined by its elements: whatever algorithm the
    engine's [sort] runs, the array it leaves is the one [sort] computes. *)
Lemma ascending_perm_eq (l l' : list num) :
  ascending l -> ascending l' -> Permutation l l' -> l = l'.
Proof.
  intros Hl. revert l'.
  induction l as [ | a r IH]; intros l' Hl' Hp.
  - apply Permutation_nil in Hp. congruence.
  - destruct l' as [ | b r'].
    + apply Permutation_sym, Permutation_nil in Hp. discriminate.
    + assert (a = b) as ->.
      { apply ascending_strong in Hl, Hl'.
        inversion Hl as [ | ? ? _ Ha]; inversion Hl' as [ | ? ? _ Hb]; subst.
        rewrite Forall_forall in Ha, Hb.
        assert (In a (b :: r')) as [-> | Hin]
            by (eapply Permutation_in; [exact Hp | left; reflexivity]);
          [reflexivity | ].
        assert (In b (a :: r)) as [-> | Hin']
            by (eapply Permutation_in; [apply Permutation_sym, Hp | left; reflexivity]);
          [reflexivity | ].
        apply Qcle_antisym; auto. }
      f_equal. apply IH.
      * unfold ascending in *. inversion Hl; assumption.
      * unfold ascending in *. inversion Hl'; assumption.
      * eapply Permutation_cons_inv, Hp.
Qed.

Lemma sort_of_perm (l l' : list num) : Permutation l l' -> sort l = sort l'.
Proof.
  intros Hp. apply ascending_perm_eq; try apply sort_ascending.
  eapply perm_trans; [apply Permutation_sym, sort_perm | ].
  eapply perm_trans; [exact Hp | apply sort_perm].
Qed.

Lemma sort_fixes_ascending (l : list num) : ascending l -> sort l = l.
Proof.
  intros Hl. apply ascending_perm_eq; [apply sort_ascending | exact Hl | ].
  apply Permutation_sym, sort_perm.
Qed.

Lemma sort_in (a : num) (l : list num) : In a (sort l) <-> In a l.
Proof.
  split; apply Permutation_in; [apply Permutation_sym | ]; apply sort_perm.
Qed.

Lemma sort_app_sort (l1 l2 : list num) :
  sort (sort l1 ++ sort l2) = sort (l1 ++ l2).
Proof.
  apply sort_of_perm, Permutation_app; apply Permutation_sym, sort_perm.
Qed.

Lemma merge_perm (l1 l2 : list num) : Permutation (l1 ++ l2) (merge l1 l2).
Proof.
  revert l2. induction l1 as [ | a r1 IH1]; intros l2.
  - destruct l2; apply Permutation_refl.
  - induction l2 as [ | b r2 IH2].
    + simpl. rewrite app_nil_r. apply Permutation_refl.
    + simpl. destruct (num_leb a b).
      * apply perm_skip, IH1.
      * eapply perm_trans; [ | apply perm_skip, IH2].
        apply Permutation_sym, (Permutation_middle (a :: r1) r2 b).
Qed.

Lemma merge_hd (c : num) (l1 l2 : list num) :
  HdRel Qcle c l1 -> HdRel Qcle c l2 -> HdRel Qcle c (merge l1 l2).
Proof.
  intros H1 H2. destruct l1 as [ | a r1], l2 as [ | b r2]; simpl; auto.
  inversion H1; inversion H2; subst.
  destruct (num_leb a b); constructor; assumption.
Qed.

Lemma merge_ascending (l1 l2 : list num) :
  ascending l1 -> ascending l2 -> ascending (merge l1 l2).
Proof.
  unfold ascending. intros H1. revert l2.
  induction H1 as [ | a r1 Hr1 IH1 Ha]; intros l2 H2.
  - destruct l2; exact H2.
  - induction H2 as [ | b r2 Hr2 IH2 Hb].
    + simpl. constructor; assumption.
    + simpl. destruct (num_leb a b) eqn:E.
      * apply num_leb_le in E. constructor.
        -- apply IH1. constructor; assumption.
        -- apply merge_hd; [exact Ha | constructor; exact E].
      * apply num_leb_gt in E. constructor.
        -- exact IH2.
        -- change (HdRel Qcle b (merge (a :: r1) r2)).
           apply merge_hd; [constructor; exact E | exact Hb].
Qed.

Lemma sort_app_merge (l1 l2 : list num) :
  ascending l1 -> ascending l2 -> sort (l1 ++ l2) = merge l1 l2.
Proof.
  intros H1 H2. apply ascending_perm_eq.
  - apply sort_ascending.
  - apply merge_ascending; assumption.
  - eapply perm_trans; [apply Permutation_sym, sort_perm | apply merge_perm].
Qed.

Lemma uniqueFrom_in (a : num) (seen l : list num) :
  In a (uniqueFrom seen l) -> In a l.
Proof.
  revert seen. induction l as [ | b r IH]; intros seen; simpl; [tauto | ].
  destruct (existsb (num_eqb b) seen); simpl; intros H.
  - right. eapply IH, H.
  - destruct H as [-> | H]; [left; reflexivity | right; eapply IH, H].
Qed.

Lemma unique_in (a : num) (l : list num) : In a (unique l) -> In a l.
Proof. apply uniqueFrom_in. Qed.

(* ------------------------------------------------------------------ *)
(** ** Facts about polygon.ts *)

Section PolygonFacts.
Context {C : Collaborators}.

Lemma newHoles_closed (holes : list Polyline) :
  forallb Polyline_isClosed holes = true ->
  newHoles holes = Ok (map (fun h => Polyline_withOrientation h clockwise) holes).
Proof.
  induction holes as [ | h rest IH]; simpl; [reflexivity | ].
  intros H. apply andb_true_iff in H as [Hh Hrest].
  rewrite Hh, (IH Hrest). reflexivity.
Qed.

Lemma newHoles_open (holes : list Polyline) :
  forallb Polyline_isClosed holes = false ->
  newHoles holes = Throw (Error "Hole must be closed to turn into polygon").
Proof.
  induction holes as [ | h rest IH]; simpl; [discriminate | ].
  destruct (Polyline_isClosed h); simpl; [ | reflexivity].
  intros H. rewrite (IH H). reflexivity.
Qed.


Lemma containsHoles_firstReport (holes : list Polyline) (point : Point) (tol : num) :
  containsHoles holes point tol
  = match firstReport (map (fun hole => Polyline_contains hole point tol) holes) with
    | Some inside => outside
    | Some coincident => coincident
    | Some outside | None => inside
    end.
Proof.
  induction holes as [ | h rest IH]; simpl; [reflexivity | ].
  unfold firstReport in *. simpl.
  destruct (Polyline_contains h point tol); simpl; auto.
Qed.

Lemma containsHoles_inside (holes : list Polyline) (point : Point) (tol : num) :
  containsHoles holes point tol = inside
  <-> Forall (fun hole => Polyline_contains hole point tol = outside) holes.
Proof.
  induction holes as [ | h rest IH]; simpl.
  - split; [constructor | reflexivity].
  - destruct (Polyline_contains h point tol) eqn:E.
    + split; [discriminate | intros H; inversion H; congruence].
    + rewrite IH. split; [constructor; assumption | intros H; inversion H; assumption].
    + split; [discriminate | intros H; inversion H; congruence].
Qed.

(** A hole scan that stops at [hole]: everything before it reported
    "outside". *)
Lemma containsHoles_stops (before after : list Polyline) (hole : Polyline)
  (point : Point) (tol : num) :
  Forall (fun h => Polyline_contains h point tol = outside) before ->
  Polyline_contains hole point tol <> outside ->
  containsHoles (before ++ hole :: after) point tol
  = match Polyline_contains hole point tol with
    | inside => outside
    | other => other
    end.
Proof.
  induction 1 as [ | h rest Hh _ IH]; intros Hhole; simpl.
  - destruct (Polyline_contains hole point tol); congruence.
  - rewrite Hh. apply IH, Hhole.
Qed.


Lemma forallb_after_map {A B : Type} (f : A -> B) (q : B -> bool) (l : list A) :
  forallb q (map f l) = forallb (fun a => q (f a)) l.
Proof. induction l as [ | a r IH]; simpl; [ | rewrite IH]; reflexivity. Qed.

Lemma fromCoords_closed (rings : list Ring) :
  hasRings rings = true -> forallb closedRing rings = true ->
  exists p, Polygon_fromCoords rings = Ok p.
Proof.
  unfold Polygon_fromCoords, Polygon_new, closedRing.
  destruct rings as [ | r0 [ | r1 rest]]; [discriminate | | ]; intros _ H.
  - simpl in H. rewrite andb_true_r in H. rewrite H. simpl. eauto.
  - change (forallb _ (r0 :: r1 :: rest))
      with (Polyline_isClosed (Polyline_fromCoords r0)
            && forallb (fun r => Polyline_isClosed (Polyline_fromCoords r)) (r1 :: rest)) in H.
    apply andb_true_iff in H as [H0 H1]. rewrite H0. simpl negb. cbv iota.
    rewrite newHoles_closed; [simpl; eauto | ].
    rewrite forallb_after_map. exact H1.
Qed.

Lemma fromGeoJSON_cons (rings : list Ring) (rest : list (list Ring)) :
  fromGeoJSON (rings :: rest)
  = if hasRings rings
    then p <- Polygon_fromCoords rings ;; outputs <- fromGeoJSON rest ;; Ok (p :: outputs)
    else fromGeoJSON rest.
Proof. destruct rings; reflexivity. Qed.


Lemma fromGeoJSON_closed (multi : list (list Ring)) :
  forallb (forallb closedRing) multi = true ->
  exists outputs, fromGeoJSON multi = Ok outputs.
Proof.
  induction multi as [ | rings rest IH]; [simpl; eauto | ].
  cbn [forallb]. intros H. apply andb_true_iff in H as [Hr Hrest].
  destruct (IH Hrest) as [ps Hps].
  rewrite fromGeoJSON_cons. destruct (hasRings rings) eqn:E; [ | eauto].
  destruct (fromCoords_closed rings E Hr) as [p Hp].
  rewrite Hp, Hps. cbn [bind]. eauto.
Qed.

(** C4: [contains] returns the boundary loop's result whenever that is not
    "inside"; otherwise it scans the holes in order and stops at the first
    hole that reports anything but "outside", answering "outside" when the
    point is inside that hole and "coincident" when it lies on its edge; it
    answers "inside" only when the boundary reports "inside" and every hole
    reports "outside". *)
Theorem Polygon_contains_classification
  (p : Polygon) (point : Point) (tolerance : option num) :
  let tol := match tolerance with Some t => t | None => absoluteTolerance end in
  let b := Polyline_contains (Polygon_boundary p) point tol in
  Polygon_contains p point tolerance = Polygon_contains_spec p point tol
  /\ (b <> inside -> Polygon_contains p point tolerance = b)
  /\ (b = inside ->
      forall before hole after,
        Polygon_holes p = before ++ hole :: after ->
        Forall (fun h => Polyline_contains h point tol = outside) before ->
        (Polyline_contains hole point tol = inside ->
         Polygon_contains p point tolerance = outside)
        /\ (Polyline_contains hole point tol = coincident ->
            Polygon_contains p point tolerance = coincident))
  /\ (Polygon_contains p point tolerance = inside
      <-> b = inside
          /\ Forall (fun h => Polyline_contains h point tol = outside) (Polygon_holes p)).
Proof.
  intros tol b. unfold Polygon_contains, Polygon_contains_spec, Polygon_boundary,
    Polygon_holes in *. fold tol. fold b.
  split; [ | split; [ | split]].
  - destruct b; simpl; try reflexivity. apply containsHoles_firstReport.
  - intros Hb. destruct b; simpl; congruence.
  - intros Hb before hole after Hsplit Hbefore. rewrite Hb. simpl. rewrite Hsplit.
    split; intros Hhole;
      (rewrite containsHoles_stops;
       [rewrite Hhole; reflexivity | assumption | congruence]).
  - split.
    + destruct b; simpl; try discriminate.
      intros H. split; [reflexivity | apply containsHoles_inside, H].
    + intros [Hb Hholes]. rewrite Hb. simpl. apply containsHoles_inside, Hholes.
Qed.


(** C9: the constructor raises an invalid-geometry error for a boundary
    that is not closed and for a hole that is not closed; [fromCoords]
    raises a RangeError for an empty list of rings; and for a closed
    boundary with closed holes construction succeeds, with nothing else
    checked, and stores the re-oriented loops. *)
Theorem Polygon_construction (boundary : Polyline) (holes : option (list Polyline)) :
  let hs := match holes with Some l => l | None => [] end in
  (Polyline_isClosed boundary = false ->
   exists e, Polygon_new boundary holes = Throw e /\ invalidGeometry e)
  /\ (Polyline_isClosed boundary = true ->
      forallb Polyline_isClosed hs = false ->
      exists e, Polygon_new boundary holes = Throw e /\ invalidGeometry e)
  /\ Polygon_fromCoords []
     = Throw (RangeError "Coordiante of polygon must have a length")
  /\ (forall first rest,
        Polygon_fromCoords (first :: rest)
        = Polygon_new (Polyline_fromCoords first)
            (match rest with
             | [] => None
             | _ :: _ => Some (map Polyline_fromCoords rest)
             end))
  /\ (Polyline_isClosed boundary = true ->
      forallb Polyline_isClosed hs = true ->
      Polygon_new boundary holes
      = Ok (mkPolygon (Polyline_withOrientation boundary counterclockwise)
              (map (fun h => Polyline_withOrientation h clockwise) hs))).
Proof.
  intros hs. unfold Polygon_new, invalidGeometry.
  split; [ | split; [ | split; [ | split]]].
  - intros ->. simpl. eauto.
  - intros -> Hopen. simpl. destruct holes as [l | ]; [ | discriminate].
    subst hs. rewrite (newHoles_open _ Hopen). simpl. eauto.
  - reflexivity.
  - intros first [ | second rest]; reflexivity.
  - intros -> Hclosed. simpl. destruct holes as [l | ]; [ | reflexivity].
    subst hs. rewrite (newHoles_closed _ Hclosed). reflexivity.
Qed.

(** C10: with an empty list as operand, [union], [intersection] and
    [difference] throw "Couldn't convert geometry for boolean": both array
    guards look at the first element only and are false on an array of
    length zero, so [toMulti] falls through to its [throw]. *)
Theorem boolean_empty_list_throws
  (pcUnion pcIntersection pcDifference : Clip) (this : Polygon)
  (operand : BooleanInput) :
  operand = InPolylineArray [] \/ operand = InPolygonArray [] ->
  let failure := Error "Couldn't convert geometry for boolean" in
  isPolylineArray operand = false
  /\ isPolygonArray operand = false
  /\ (forall first rest, isPolylineArray (InPolylineArray (first :: rest)) = true)
  /\ (forall first rest, isPolygonArray (InPolygonArray (first :: rest)) = true)
  /\ toMulti operand = Throw failure
  /\ Polygon_union pcUnion this operand = Throw failure
  /\ Polygon_intersection pcIntersection this operand = Throw failure
  /\ Polygon_difference pcDifference this operand = Throw failure.
Proof.
  intros [-> | ->]; repeat split.
Qed.

End PolygonFacts.

(* ------------------------------------------------------------------ *)
(** ** Facts about intersection/meta.ts *)

Section DispatchFacts.
Context {C : Collaborators}.

(** Induction on targets, arrays included. *)
Lemma Geom_induction (P : Geom -> Prop) :
  (forall g, match g with GArray _ => False | _ => True end -> P g) ->
  (forall elements, Forall P elements -> P (GArray elements)) ->
  forall g, P g.
Proof.
  intros Hleaf Harray. fix IH 1.
  intros [ | | | | | | | | elements | ]; try (apply Hleaf; exact I).
  apply Harray. induction elements as [ | g rest IHrest]; constructor.
  - apply IH.
  - exact IHrest.
Qed.

Lemma Point_equals_eq (p q : Point) : Point_equals p q = true <-> p = q.
Proof.
  unfold Point_equals. rewrite andb_true_iff, !num_eqb_eq.
  destruct p, q; simpl. split; [intros [-> ->]; reflexivity | intros [= -> ->]; auto].
Qed.

Lemma in01_bounds (t : num) : in01 t = true <-> 0 <= t /\ t <= 1.
Proof. unfold in01. rewrite andb_true_iff, !num_leb_le. reflexivity. Qed.

Lemma flat_map_sort_perm {A : Type} (f : A -> list num) (l : list A) :
  Permutation (flat_map f l) (flat_map (fun a => sort (f a)) l).
Proof.
  induction l as [ | a r IH]; simpl; [apply perm_nil | ].
  apply Permutation_app; [apply sort_perm | exact IH].
Qed.

(** Rule 4: a BoundingBox or Rectangle target is its boundary polyline. *)
Lemma line_box_is_polyline (theLine : Line) (b : BoundingBox) (r : Rectangle) :
  line theLine (GBoundingBox b) = line theLine (GPolyline (BoundingBox_toPolyline b))
  /\ line theLine (GRectangle r) = line theLine (GPolyline (Rectangle_toPolyline r)).
Proof. split; reflexivity. Qed.



Lemma polyline_leaf (thePolyline : Polyline) (g : Geom) (ps : list num) :
  match g with GArray _ => False | _ => True end ->
  polyline thePolyline g = Ok ps ->
  ps = [] \/ ps = polylineBody thePolyline g.
Proof.
  destruct g as [ | | | | | | | | | [ | b]]; simpl; intros H; try contradiction;
    unfold polylineVsBox;
    repeat match goal with
           | |- context [if ?b then _ else _] => destruct b
           end; intros [= <-]; auto.
Qed.

Lemma polyline_leaf_total (thePolyline : Polyline) (g : Geom) :
  match g with GArray _ | GOther UNullish => False | _ => True end ->
  exists ps, polyline thePolyline g = Ok ps.
Proof.
  destruct g as [ | | | | | | | | | [ | b]]; simpl; intros H; try contradiction;
    unfold polylineVsBox;
    repeat match goal with
           | |- context [if ?b then _ else _] => destruct b
           end; eauto.
Qed.

Lemma segmentLoop_in (p : num) (segments : list Line) (g : Geom) (i : nat) :
  In p (segmentLoop i segments g) ->
  exists k edge t,
    nth_error segments k = Some edge /\ In t (line edge g)
    /\ p = num_of_nat (i + k) + t.
Proof.
  revert i. induction segments as [ | edge rest IH]; intros i; simpl; [tauto | ].
  rewrite in_app_iff, in_map_iff. intros [[t [<- Ht]] | Hrest].
  - exists 0%nat, edge, t. rewrite Nat.add_0_r. auto.
  - destruct (IH _ Hrest) as (k & e & t & Hk & Ht & ->).
    exists (S k), e, t. rewrite Nat.add_succ_r. auto.
Qed.

Lemma num_of_nat_bounds (k n : nat) (t : num) :
  (k < n)%nat -> 0 <= t -> t <= 1 ->
  0 <= num_of_nat k + t /\ num_of_nat k + t <= num_of_nat n.
Proof.
  intros Hk H0 H1.
  assert (inject_Z (Z.of_nat k) + 1 <= inject_Z (Z.of_nat n))%Q.
  { rewrite <- (inject_Z_plus _ 1). rewrite <- Zle_Qle. lia. }
  assert (0 <= inject_Z (Z.of_nat k))%Q.
  { change 0%Q with (inject_Z 0). rewrite <- Zle_Qle. lia. }
  unfold num_of_nat. split; qc_lra.
Qed.

Lemma polylineBody_within (thePolyline : Polyline) (g : Geom) :
  unitParameters thePolyline g = true ->
  Forall (withinSegments thePolyline) (polylineBody thePolyline g).
Proof.
  unfold unitParameters, polylineBody. rewrite forallb_forall. intros Hunit.
  apply Forall_forall. intros p Hp.
  apply sort_in, unique_in, segmentLoop_in in Hp.
  destruct Hp as (k & edge & t & Hk & Ht & ->).
  assert (Hin : In edge (Polyline_segments thePolyline)) by (eapply nth_error_In, Hk).
  specialize (Hunit _ Hin). rewrite forallb_forall in Hunit.
  apply Hunit, in01_bounds in Ht. destruct Ht as [H0 H1].
  apply num_of_nat_bounds; [ | exact H0 | exact H1].
  apply nth_error_Some. simpl. congruence.
Qed.

Lemma unitParameters_element (thePolyline : Polyline) (elements : list Geom) (g : Geom) :
  unitParameters thePolyline (GArray elements) = true -> In g elements ->
  unitParameters thePolyline g = true.
Proof.
  unfold unitParameters. rewrite !forallb_forall. intros H Hg edge Hedge.
  specialize (H _ Hedge). rewrite forallb_forall in *. intros t Ht. apply H.
  simpl. apply sort_in, in_flat_map. eauto.
Qed.

Lemma pushEach_within (thePolyline : Polyline) (elements : list Geom) :
  Forall (fun g => exists ps, polyline thePolyline g = Ok ps
                              /\ Forall (withinSegments thePolyline) ps) elements ->
  exists all, pushEach (polyline thePolyline) elements = Ok all
              /\ Forall (withinSegments thePolyline) all.
Proof.
  induction 1 as [ | g rest (ps & Hps & Hin) _ (all & Hall & Hin')]; simpl.
  - eauto.
  - rewrite Hps, Hall. simpl. eexists; split; [reflexivity | ].
    apply Forall_app; auto.
Qed.

Lemma segmentLoop_unrecognized (i : nat) (segments : list Line) (v : Unknown) :
  segmentLoop i segments (GOther v) = [].
Proof.
  revert i. induction segments as [ | edge rest IH]; intros i; simpl; auto.
Qed.

(** C1 (amended): for a Polygon target, [line] and [ray] first test the
    boundary's bounding box.  When the query meets that box, the result is
    the ascending sort of the polyline intersection (rule 6) applied to the
    boundary and to each hole, each loop behind its own bounding box; when
    it does not, the result is empty and no hole is tested. *)
Theorem polygon_target_behind_boundary_box
  (theLine : Line) (theRay : Ray) (p : Polygon) :
  line theLine (GPolygon p)
  = (if box_intersects (lineBox theLine (Polyline_boundingBox (Polygon_boundary p)))
     then lineLoops theLine p else [])
  /\ ray theRay (GPolygon p)
     = (if box_intersects (rayBox theRay (Polyline_boundingBox (Polygon_boundary p)))
        then rayLoops theRay p else []).
Proof.
  split; simpl.
  - unfold line_Polygon, lineLoops. cbv zeta.
    destruct (box_intersects (lineBox theLine _)) eqn:E; [ | reflexivity].
    apply sort_of_perm. cbn [flat_map line]. unfold line_Polyline at 1. cbv zeta.
    rewrite E. apply Permutation_app; [apply sort_perm | ].
    apply (flat_map_sort_perm
             (fun hole => if box_intersects (lineBox theLine (Polyline_boundingBox hole))
                          then linePolyline theLine hole else [])).
  - unfold ray_Polygon, rayLoops. cbv zeta.
    destruct (box_intersects (rayBox theRay _)) eqn:E; [ | reflexivity].
    apply sort_of_perm. cbn [flat_map ray]. unfold ray_Polyline at 1. cbv zeta.
    rewrite E. apply Permutation_app; [apply sort_perm | ].
    apply (flat_map_sort_perm
             (fun hole => if box_intersects (rayBox theRay (Polyline_boundingBox hole))
                          then rayPolyline theRay hole else [])).
Qed.

(** C2 (amended): for a polyline query with [n] segments (closed or open)
    and a supported target, if every parameter the per-segment line
    dispatch reports lies on its segment ([0 <= t <= 1]), the polyline
    dispatch returns a list, and every [p] in it satisfies [0 <= p <= n]. *)
Theorem polyline_parameters_within
  (thePolyline : Polyline) (otherGeom : Geom) :
  supported otherGeom = true ->
  unitParameters thePolyline otherGeom = true ->
  exists ps,
    polyline thePolyline otherGeom = Ok ps
    /\ Forall (withinSegments thePolyline) ps.
Proof.
  induction otherGeom as [g Hleaf | elements IH] using Geom_induction;
    intros Hsup Hunit.
  - destruct (polyline_leaf_total thePolyline g) as [ps Hps].
    { destruct g as [ | | | | | | | | | v]; simpl in *;
        try exact I; try contradiction; discriminate. }
    exists ps. split; [exact Hps | ].
    destruct (polyline_leaf thePolyline g Hleaf Hps) as [-> | ->];
      [constructor | apply polylineBody_within, Hunit].
  - simpl in Hsup. rewrite forallb_forall in Hsup.
    assert (Hall : Forall (fun g => exists ps,
                             polyline thePolyline g = Ok ps
                             /\ Forall (withinSegments thePolyline) ps) elements).
    { rewrite Forall_forall in *. intros g Hg.
      apply IH; [exact Hg | apply Hsup, Hg | ].
      eapply unitParameters_element; eassumption. }
    apply pushEach_within in Hall. destruct Hall as (all & Hall & Hin).
    simpl. rewrite Hall. simpl. eexists; split; [reflexivity | ].
    rewrite Forall_forall in *. intros p Hp. apply Hin, sort_in, Hp.
Qed.

(** C3 (amended): for a target of no recognised kind, [line] and [ray]
    return the empty list and raise nothing; [polyline] returns the empty
    list and raises nothing when the value carries a bounding box for its
    fast-reject to read. *)
Theorem unrecognized_target
  (theLine : Line) (theRay : Ray) (thePolyline : Polyline) (v : Unknown) :
  line theLine (GOther v) = []
  /\ ray theRay (GOther v) = []
  /\ (forall b, polyline thePolyline (GOther (UBoxed b)) = Ok []).
Proof.
  repeat split. intros b. simpl.
  unfold polylineVsBox, polylineBody. rewrite segmentLoop_unrecognized.
  destruct (negb _); reflexivity.
Qed.

(** C6: for a Line and a two-element target list, the result is the
    ascending arrangement of the two elements' results taken together:
    sorted, a permutation of their concatenation (so equal values are all
    kept), and, when the two results are ascending themselves, their
    two-way merge. *)
Theorem line_list_target_merge (theLine : Line) (g1 g2 : Geom) :
  let r := line theLine (GArray [g1; g2]) in
  r = sort (line theLine g1 ++ line theLine g2)
  /\ ascending r
  /\ Permutation (line theLine g1 ++ line theLine g2) r
  /\ (ascending (line theLine g1) -> ascending (line theLine g2) ->
      r = merge (line theLine g1) (line theLine g2)).
Proof.
  intros r.
  assert (Hr : r = sort (line theLine g1 ++ line theLine g2)).
  { subst r. cbn [line flat_map]. rewrite app_nil_r. reflexivity. }
  rewrite Hr. split; [reflexivity | split; [ | split]].
  - apply sort_ascending.
  - apply sort_perm.
  - apply sort_app_merge.
Qed.


(** C8: for a Point target, [line] and [ray] return the singleton of the
    query's closest parameter [t] exactly when the point at [t] is the
    target point (equal coordinates, no tolerance), and the empty list
    exactly when it is not. *)
Theorem point_target_exact_hit (theLine : Line) (theRay : Ray) (p : Point) :
  let t := Line_closestParameter theLine p true in
  let s := Ray_closestParameter theRay p in
  (line theLine (GPoint p) = [t] <-> Line_pointAt theLine t true = p)
  /\ (line theLine (GPoint p) = [] <-> Line_pointAt theLine t true <> p)
  /\ (ray theRay (GPoint p) = [s] <-> Ray_pointAt theRay s = p)
  /\ (ray theRay (GPoint p) = [] <-> Ray_pointAt theRay s <> p).
Proof.
  intros t s. simpl. fold t. fold s.
  destruct (Point_equals (Line_pointAt theLine t true) p) eqn:EL;
    destruct (Point_equals (Ray_pointAt theRay s) p) eqn:ER;
    repeat match goal with
           | H : Point_equals _ _ = true |- _ => apply Point_equals_eq in H
           | H : Point_equals ?a ?b = false |- _ =>
               assert (a <> b)
                 by (intros Heq; apply Point_equals_eq in Heq; congruence);
               clear H
           end;
    repeat split; intros; try congruence; try discriminate; try tauto.
Qed.

End DispatchFacts.

(* ------------------------------------------------------------------ *)
(** ** The scenes, evaluated *)

Section Evaluation.

Lemma ascendingb_sound (l : list num) : ascendingb l = true -> ascending l.
Proof.
  unfold ascending. induction l as [ | a [ | b r] IH]; intros H.
  - constructor.
  - repeat constructor.
  - cbn [ascendingb] in H. apply andb_true_iff in H as [Hab Hr].
    constructor; [apply IH, Hr | constructor; apply num_leb_le, Hab].
Qed.

(** Two lists of numbers with the same fractions are the same list. *)
Lemma nums_eq (l l' : list num) : map this l = map this l' -> l = l'.
Proof.
  revert l'. induction l as [ | a r IH]; intros [ | b r']; simpl; try discriminate.
  - reflexivity.
  - intros [= Hab Hr]. f_equal; [ | apply IH, Hr].
    apply Qc_is_canon. rewrite Hab. reflexivity.
Qed.

Lemma point_eq (p q : Point) :
  this (x p) = this (x q) -> this (y p) = this (y q) -> p = q.
Proof.
  destruct p as [a b], q as [c d]; simpl. intros Hx Hy.
  f_equal; apply Qc_is_canon; [rewrite Hx | rewrite Hy]; reflexivity.
Qed.

Lemma Ok_nums_eq (r : Res (list num)) (l' : list num) :
  match r with Ok l => map this l = map this l' | Throw _ => False end ->
  r = Ok l'.
Proof.
  destruct r as [l | e]; [ | contradiction]. intros H. f_equal. apply nums_eq, H.
Qed.

End Evaluation.

Module SceneFacts.
Import Exact Scenes.

(** The constructor accepts the scenes' loops and stores them as the scenes
    have them. *)
Lemma scenes_constructed :
  Polygon_new (square 0 0 4 4) (Some [square 10 10 12 12]) = Ok farPolygon
  /\ Polygon_new (square 8 8 14 14) (Some [square 10 10 12 12]) = Ok nestedPolygon
  /\ Polygon_new (square 0 0 4 4) (Some [square 1 1 3 3]) = Ok holedSquare
  /\ Polygon_new (square 0 0 4 4) None = Ok plainSquare.
Proof. repeat split. Qed.

(** Section 8: the line from (-1,1) to (5,1) meets the 4x4 box on its left
    and right edges, in this order along the line. *)
Lemma line_through_box :
  line crossingLine (GBoundingBox box4) = [frac 1 6; frac 5 6]
  /\ Line_pointAt crossingLine (frac 1 6) true = pt 0 1
  /\ Line_pointAt crossingLine (frac 5 6) true = pt 4 1.
Proof.
  split; [apply nums_eq; reflexivity | ].
  split; apply point_eq; reflexivity.
Qed.

(** With the boundary around the hole, the hole's hits are reported. *)
Lemma nested_hole_reported :
  line farLine (GPolygon nestedPolygon) = [frac 1 4; frac 3 4].
Proof. apply nums_eq. vm_compute. reflexivity. Qed.

(** C1, counterexample: the hole (10,10)-(12,12) lies outside the box of the
    boundary (0,0)-(4,4).  The segment from (9,11) to (13,11) crosses the
    hole at 1/4 and 3/4 and misses the boundary's box; rule 6 on the loops
    one by one gives [1/4; 3/4], the dispatch gives the empty list, for the
    line and for the ray alike. *)
Lemma hole_beyond_boundary_box_skipped :
  box_intersects (lineBox farLine (Polyline_boundingBox (Polygon_boundary farPolygon)))
  = false
  /\ lineLoops farLine farPolygon = [frac 1 4; frac 3 4]
  /\ line farLine (GPolygon farPolygon) = []
  /\ line farLine (GPolygon farPolygon) <> lineLoops farLine farPolygon
  /\ rayLoops farRay farPolygon = [int 1; int 3]
  /\ ray farRay (GPolygon farPolygon) = []
  /\ ray farRay (GPolygon farPolygon) <> rayLoops farRay farPolygon.
Proof.
  split; [reflexivity | ].
  split; [apply nums_eq; vm_compute; reflexivity | ].
  split; [reflexivity | ].
  split; [intros H; apply (f_equal (@List.length num)) in H; vm_compute in H; discriminate | ].
  split; [apply nums_eq; vm_compute; reflexivity | ].
  split; [reflexivity | ].
  intros H; apply (f_equal (@List.length num)) in H; vm_compute in H; discriminate.
Qed.

(** C2, counterexample: the closed triangle (0,0), (4,0), (0,4) has three
    segments; the target point (0,0) is the start of segment 0 and the end
    of segment 2, so the dispatch returns [0; 3], and 3 is not below 3. *)
Lemma closing_vertex_parameter_is_n :
  Polyline_isClosed triangle = true
  /\ List.length (Polyline_segments triangle) = 3%nat
  /\ supported (GPoint (pt 0 0)) = true
  /\ polyline triangle (GPoint (pt 0 0)) = Ok [int 0; int 3]
  /\ ~ (forall p, In p [int 0; int 3] -> 0 <= p /\ p < num_of_nat 3).
Proof.
  split; [reflexivity | ]. split; [reflexivity | ]. split; [reflexivity | ].
  split; [apply Ok_nums_eq; vm_compute; reflexivity | ].
  intros H. destruct (H (int 3)) as [_ Hlt]; [right; left; reflexivity | ].
  vm_compute in Hlt. discriminate.
Qed.

(** C3, counterexample: [polyline] reads [boundingBox] from a target of no
    recognised kind; on [undefined] that read throws. *)
Lemma polyline_on_undefined_throws :
  supported (GOther UNullish) = false
  /\ polyline triangle (GOther UNullish) = Throw TypeError
  /\ polyline triangle (GOther UNullish) <> Ok [].
Proof. repeat split. discriminate. Qed.

End SceneFacts.

Module Witnesses.
Import Exact Scenes.

Lemma polyline_parameters_within_witness :
  supported (GPoint (pt 0 0)) = true
  /\ unitParameters triangle (GPoint (pt 0 0)) = true
  /\ exists ps,
       polyline triangle (GPoint (pt 0 0)) = Ok ps
       /\ Forall (withinSegments triangle) ps.
Proof.
  split; [reflexivity | ]. split; [vm_compute; reflexivity | ].
  apply (@polyline_parameters_within exact triangle (GPoint (pt 0 0)));
    vm_compute; reflexivity.
Defined.

(** Section 8: in the 4x4 square with the hole (1,1)-(3,3), the point (2,2)
    is outside (inside the hole), (1,1) is coincident, (1/2,1/2) is inside;
    (5,5) is outside the boundary. *)
Lemma Polygon_contains_classification_witness :
  Polygon_contains holedSquare (pt 2 2) None = outside
  /\ Polygon_contains holedSquare (pt 1 1) None = coincident
  /\ Polygon_contains holedSquare (mkPoint (frac 1 2) (frac 1 2)) None = inside
  /\ Polygon_contains holedSquare (pt 5 5) None = outside.
Proof.
  split; [ | split; [ | split]].
  - destruct (@Polygon_contains_classification exact holedSquare (pt 2 2) None)
      as (_ & _ & H & _).
    destruct (H ltac:(vm_compute; reflexivity) [] (squareCW 1 1 3 3) [] eq_refl
                (Forall_nil _)) as [Hin _].
    apply Hin. vm_compute. reflexivity.
  - destruct (@Polygon_contains_classification exact holedSquare (pt 1 1) None)
      as (_ & _ & H & _).
    destruct (H ltac:(vm_compute; reflexivity) [] (squareCW 1 1 3 3) [] eq_refl
                (Forall_nil _)) as [_ Hco].
    apply Hco. vm_compute. reflexivity.
  - destruct (@Polygon_contains_classification exact holedSquare
                (mkPoint (frac 1 2) (frac 1 2)) None) as (_ & _ & _ & H).
    apply H. split; [vm_compute; reflexivity | ].
    repeat constructor.
  - destruct (@Polygon_contains_classification exact holedSquare (pt 5 5) None)
      as (_ & H & _).
    rewrite H; vm_compute; [reflexivity | discriminate].
Defined.


(** The line of section 8 against the 4x4 box, twice: equal parameters are
    kept. *)
Lemma line_list_target_merge_witness :
  line crossingLine (GArray [boxTarget; boxTarget])
  = merge (line crossingLine boxTarget) (line crossingLine boxTarget)
  /\ map this (line crossingLine (GArray [boxTarget; boxTarget]))
     = [1 # 6; 1 # 6; 5 # 6; 5 # 6]%Q.
Proof.
  split; [ | vm_compute; reflexivity].
  destruct (@line_list_target_merge exact crossingLine boxTarget boxTarget)
    as (_ & _ & _ & H).
  apply H; apply ascendingb_sound; vm_compute; reflexivity.
Defined.


(** The point (2,1) lies on the line of section 8 at 1/2; the point (2,2)
    is nearest to the same parameter and is not on the line. *)
Lemma point_target_exact_hit_witness :
  line crossingLine (GPoint (pt 2 1)) = [frac 1 2]
  /\ line crossingLine (GPoint (pt 2 2)) = []
  /\ ray diameterRay (GPoint (pt 2 0)) = [int 7]
  /\ ray diameterRay (GPoint (pt 2 2)) = [].
Proof.
  split; [ | split; [ | split]].
  - destruct (@point_target_exact_hit exact crossingLine diameterRay (pt 2 1))
      as (H & _).
    cbv zeta in H. rewrite (proj2 H).
    + apply nums_eq. vm_compute. reflexivity.
    + apply point_eq; vm_compute; reflexivity.
  - destruct (@point_target_exact_hit exact crossingLine diameterRay (pt 2 2))
      as (_ & H & _).
    apply H. intros Heq. apply (f_equal (fun p => this (y p))) in Heq.
    vm_compute in Heq. discriminate.
  - destruct (@point_target_exact_hit exact crossingLine diameterRay (pt 2 0))
      as (_ & _ & H & _).
    cbv zeta in H. rewrite (proj2 H).
    + apply nums_eq. vm_compute. reflexivity.
    + apply point_eq; vm_compute; reflexivity.
  - destruct (@point_target_exact_hit exact crossingLine diameterRay (pt 2 2))
      as (_ & _ & _ & H).
    apply H. intros Heq. apply (f_equal (fun p => this (y p))) in Heq.
    vm_compute in Heq. discriminate.
Defined.

Lemma Polygon_construction_witness :
  (exists e, Polygon_new openPath None = Throw e /\ invalidGeometry e)
  /\ (exists e, Polygon_new (square 0 0 4 4) (Some [square 1 1 3 3; openPath]) = Throw e
                /\ invalidGeometry e)
  /\ Polygon_new (square 0 0 4 4) (Some [square 1 1 3 3]) = Ok holedSquare.
Proof.
  split; [ | split].
  - destruct (@Polygon_construction exact openPath None) as (H & _).
    apply H. reflexivity.
  - destruct (@Polygon_construction exact (square 0 0 4 4)
                (Some [square 1 1 3 3; openPath])) as (_ & H & _).
    apply H; reflexivity.
  - destruct (@Polygon_construction exact (square 0 0 4 4) (Some [square 1 1 3 3]))
      as (_ & _ & _ & _ & H).
    rewrite H; reflexivity.
Defined.

Lemma boolean_empty_list_throws_witness :
  Polygon_union sceneDifference plainSquare (InPolygonArray [])
  = Throw (Error "Couldn't convert geometry for boolean")
  /\ Polygon_difference sceneDifference plainSquare (InPolylineArray [])
     = Throw (Error "Couldn't convert geometry for boolean").
Proof.
  split.
  - destruct (@boolean_empty_list_throws exact sceneDifference sceneDifference
                sceneDifference plainSquare (InPolygonArray []))
      as (_ & _ & _ & _ & _ & H & _); [right; reflexivity | exact H].
  - destruct (@boolean_empty_list_throws exact sceneDifference sceneDifference
                sceneDifference plainSquare (InPolylineArray []))
      as (_ & _ & _ & _ & _ & _ & _ & H); [left; reflexivity | exact H].
Defined.

End Witnesses.

(* ------------------------------------------------------------------ *)
(** ** Further facts: utilities.ts *)

Lemma num_ltb_lt (a b : num) : num_ltb a b = true <-> a < b.
Proof.
  unfold num_ltb. rewrite negb_true_iff. split.
  - intros H. apply Qcnot_le_lt. intros Hle. apply num_leb_le in Hle.
    unfold num_leb in Hle. congruence.
  - intros H. destruct (Qle_bool b a) eqn:E; [ | reflexivity].
    apply Qle_bool_iff in E. apply Qclt_not_le in H. contradiction.
Qed.

Lemma num_ltb_ge (a b : num) : num_ltb a b = false <-> b <= a.
Proof.
  unfold num_ltb. rewrite negb_false_iff. apply Qle_bool_iff.
Qed.

Section GuardFacts.
Context {C : Collaborators}.

(** X2: each of the four array guards accepts exactly the arrays whose
    first element is of its class (a Point, a number, a Polyline, a
    Polygon), whatever follows it.  So at most one guard accepts a value,
    and none accepts an empty array or a value that is no array.  On the
    operands of the boolean operations they agree with the guards [toMulti]
    is written with. *)
Theorem array_guards_first_element (value : Utilities.JsValue) :
  (Utilities.isPointArray value = true
   <-> exists p rest, value = Utilities.VArray (Utilities.VPoint p :: rest))
  /\ (Utilities.isNumberArray value = true
      <-> exists n rest, value = Utilities.VArray (Utilities.VNumber n :: rest))
  /\ (Utilities.isPolylineArray value = true
      <-> exists p rest, value = Utilities.VArray (Utilities.VPolyline p :: rest))
  /\ (Utilities.isPolygonArray value = true
      <-> exists p rest, value = Utilities.VArray (Utilities.VPolygon p :: rest))
  /\ (match Utilities.isPointArray value, Utilities.isNumberArray value,
            Utilities.isPolylineArray value, Utilities.isPolygonArray value with
      | true, false, false, false | false, true, false, false
      | false, false, true, false | false, false, false, true
      | false, false, false, false => True
      | _, _, _, _ => False
      end)
  /\ (forall first rest,
        Utilities.isPointArray (Utilities.VArray (first :: rest))
        = Utilities.isPointArray (Utilities.VArray [first])
        /\ Utilities.isNumberArray (Utilities.VArray (first :: rest))
           = Utilities.isNumberArray (Utilities.VArray [first])
        /\ Utilities.isPolylineArray (Utilities.VArray (first :: rest))
           = Utilities.isPolylineArray (Utilities.VArray [first])
        /\ Utilities.isPolygonArray (Utilities.VArray (first :: rest))
           = Utilities.isPolygonArray (Utilities.VArray [first]))
  /\ ((value = Utilities.VArray []
       \/ match value with Utilities.VArray _ => False | _ => True end) ->
      Utilities.isPointArray value = false
      /\ Utilities.isNumberArray value = false
      /\ Utilities.isPolylineArray value = false
      /\ Utilities.isPolygonArray value = false)
  /\ (forall input,
        Utilities.isPolylineArray (Utilities.valueOf input) = isPolylineArray input
        /\ Utilities.isPolygonArray (Utilities.valueOf input) = isPolygonArray input).
Proof.
  repeat match goal with |- _ /\ _ => split end.
  - split.
    + destruct value as [ | | | | [ | [ | | | | | ] rest] | ]; simpl;
        try discriminate; eauto.
    + intros (p & rest & ->). reflexivity.
  - split.
    + destruct value as [ | | | | [ | [ | | | | | ] rest] | ]; simpl;
        try discriminate; eauto.
    + intros (n & rest & ->). reflexivity.
  - split.
    + destruct value as [ | | | | [ | [ | | | | | ] rest] | ]; simpl;
        try discriminate; eauto.
    + intros (p & rest & ->). reflexivity.
  - split.
    + destruct value as [ | | | | [ | [ | | | | | ] rest] | ]; simpl;
        try discriminate; eauto.
    + intros (p & rest & ->). reflexivity.
  - destruct value as [ | | | | [ | [ | | | | | ] rest] | ]; simpl; exact I.
  - intros [ | | | | | ] rest; repeat split.
  - intros [-> | H]; [repeat split | ].
    destruct value; try contradiction; repeat split.
  - intros [p | p | [ | p l] | [ | p l]]; split; reflexivity.
Qed.

End GuardFacts.

(* ------------------------------------------------------------------ *)
(** ** Further facts: polygon.ts *)

Section PolygonMethodFacts.
Context {C : Collaborators} {M : Measures}.

Lemma skipn_nth_error {A : Type} (l : list A) (i : nat) (a : A) :
  nth_error l i = Some a -> skipn i l = a :: skipn (S i) l.
Proof.
  revert i. induction l as [ | b r IH]; intros [ | i]; simpl; try discriminate.
  - intros [= ->]. reflexivity.
  - intros H. rewrite (IH _ H). reflexivity.
Qed.

Lemma everyEquals_decides (holes others : list Polyline) (index : nat) :
  (index + List.length holes = List.length others)%nat ->
  exists b,
    everyEquals index holes others = Some b
    /\ (b = true <-> Forall2 (fun h o => Polyline_equals h o = true)
                             holes (skipn index others)).
Proof.
  revert index. induction holes as [ | h rest IH]; intros index Hlen; simpl in *.
  - exists true. split; [reflexivity | ]. split; [ | reflexivity]. intros _.
    rewrite skipn_all2; [constructor | lia].
  - destruct (nth_error others index) as [o | ] eqn:E.
    + rewrite (skipn_nth_error _ _ E).
      destruct (Polyline_equals h o) eqn:Eq.
      * destruct (IH (S index)) as (b & Hb & Hiff); [lia | ].
        exists b. split; [exact Hb | ]. rewrite Hiff. split.
        -- intros H. constructor; assumption.
        -- intros H. inversion H; assumption.
      * exists false. split; [reflexivity | ]. split; [discriminate | ].
        intros H. inversion H; congruence.
    + apply nth_error_None in E. lia.
Qed.

(** X4: [equals] always comes to an answer: behind its length test, the
    indexed comparison never reads past the other polygon's holes.  The
    answer is [true] exactly when the two polygons have as many holes, the
    boundaries are equal and the holes are equal pair by pair, in order. *)
Theorem Polygon_equals_decides (p q : Polygon) :
  exists b,
    Polygon_equals p q = Some b
    /\ (b = true <->
        List.length (Polygon_holes p) = List.length (Polygon_holes q)
        /\ Polyline_equals (Polygon_boundary p) (Polygon_boundary q) = true
        /\ Forall2 (fun h o => Polyline_equals h o = true)
                   (Polygon_holes p) (Polygon_holes q)).
Proof.
  unfold Polygon_equals, Polygon_boundary, Polygon_holes.
  destruct (Nat.eqb (List.length (_holes p)) (List.length (_holes q))) eqn:El; simpl.
  - apply Nat.eqb_eq in El.
    destruct (Polyline_equals (_boundary p) (_boundary q)) eqn:Eb; simpl.
    + destruct (everyEquals_decides (_holes p) (_holes q) 0) as (b & Hb & Hiff);
        [exact El | ].
      exists b. split; [exact Hb | ]. rewrite Hiff. simpl. tauto.
    + exists false. split; [reflexivity | ].
      split; [discriminate | intros (_ & H & _); discriminate].
  - apply Nat.eqb_neq in El. exists false. split; [reflexivity | ].
    split; [discriminate | intros (H & _); contradiction].
Qed.

Lemma closestLoopStep_some (targetPoint : Point) (d : num) (best c : Polyline) :
  closestLoopStep targetPoint (Some d, best) c
  = if num_ltb (loopDistance targetPoint c) d
    then (Some (loopDistance targetPoint c), c) else (Some d, best).
Proof. reflexivity. Qed.

Lemma closestLoopStep_none (targetPoint : Point) (best c : Polyline) :
  closestLoopStep targetPoint (None, best) c = (Some (loopDistance targetPoint c), c).
Proof. reflexivity. Qed.

Lemma closestPointStep_some (targetPoint : Point) (d : num) (best : Point) (c : Polyline) :
  closestPointStep targetPoint (Some d, best) c
  = if num_ltb d (boxDistance targetPoint c) then (Some d, best)
    else if num_ltb (loopDistance targetPoint c) d
         then (Some (loopDistance targetPoint c), Polyline_closestPoint c targetPoint)
         else (Some d, best).
Proof. reflexivity. Qed.

Lemma closestPointStep_none (targetPoint best : Point) (c : Polyline) :
  closestPointStep targetPoint (None, best) c
  = (Some (loopDistance targetPoint c), Polyline_closestPoint c targetPoint).
Proof. reflexivity. Qed.

(** The loop the scan of [closestLoop] ends on, started on [best] with the
    loops [rest] still to come. *)
Lemma closestLoop_scan (targetPoint : Point) (rest : list Polyline) (best : Polyline) :
  let final := fold_left (closestLoopStep targetPoint) rest
                 (Some (loopDistance targetPoint best), best) in
  fst final = Some (loopDistance targetPoint (snd final))
  /\ exists before after,
       best :: rest = before ++ snd final :: after
       /\ Forall (fun l => loopDistance targetPoint (snd final)
                           < loopDistance targetPoint l) before
       /\ Forall (fun l => loopDistance targetPoint (snd final)
                           <= loopDistance targetPoint l) after.
Proof.
  revert best. induction rest as [ | c rest IH]; intros best; cbn zeta.
  - simpl. split; [reflexivity | ]. exists [], []. repeat split; constructor.
  - cbn [fold_left]. rewrite closestLoopStep_some.
    destruct (num_ltb (loopDistance targetPoint c) (loopDistance targetPoint best)) eqn:E.
    + apply num_ltb_lt in E.
      destruct (IH c) as (Hfst & before & after & Hsplit & Hbefore & Hafter).
      split; [exact Hfst | ].
      exists (best :: before), after. split; [simpl; rewrite Hsplit; reflexivity | ].
      split; [ | exact Hafter]. constructor; [ | exact Hbefore].
      destruct before as [ | b0 before'].
      * injection Hsplit as <- _. exact E.
      * injection Hsplit as <- _. inversion Hbefore; subst.
        eapply Qclt_trans; eassumption.
    + apply num_ltb_ge in E.
      destruct (IH best) as (Hfst & before & after & Hsplit & Hbefore & Hafter).
      split; [exact Hfst | ].
      destruct before as [ | b0 before'].
      * injection Hsplit as Hbest Hrest. exists [], (c :: after).
        split; [simpl; f_equal; [exact Hbest | f_equal; exact Hrest] | ].
        split; [constructor | ]. constructor; [ | exact Hafter].
        rewrite <- Hbest. exact E.
      * injection Hsplit as <- Hrest. exists (best :: c :: before'), after.
        split; [simpl; do 2 f_equal; exact Hrest | ].
        split; [ | exact Hafter]. inversion Hbefore; subst.
        constructor; [assumption | ]. constructor; [ | assumption].
        eapply Qclt_le_trans; eassumption.
Qed.

Lemma closestLoop_split (p : Polygon) (targetPoint : Point) :
  let best := Polygon_closestLoop p targetPoint in
  exists before after,
    Polygon_boundary p :: Polygon_holes p = before ++ best :: after
    /\ Forall (fun l => loopDistance targetPoint best < loopDistance targetPoint l) before
    /\ Forall (fun l => loopDistance targetPoint best <= loopDistance targetPoint l) after.
Proof.
  unfold Polygon_closestLoop, Polygon_boundary, Polygon_holes.
  cbn [fold_left]. rewrite closestLoopStep_none. apply closestLoop_scan.
Qed.

(** X5: [closestLoop] returns the boundary or one of the holes; none of the
    polygon's loops is nearer to the point than the one returned; and of
    several loops at the least distance it returns the first (the boundary
    before the holes, the holes in order): every loop in front of it is
    strictly farther. *)
Theorem closestLoop_nearest_first (p : Polygon) (targetPoint : Point) :
  let loops := Polygon_boundary p :: Polygon_holes p in
  let best := Polygon_closestLoop p targetPoint in
  In best loops
  /\ Forall (fun l => loopDistance targetPoint best <= loopDistance targetPoint l) loops
  /\ exists before after,
       loops = before ++ best :: after
       /\ Forall (fun l => loopDistance targetPoint best < loopDistance targetPoint l)
                 before.
Proof.
  intros loops best.
  destruct (closestLoop_split p targetPoint) as (before & after & Hsplit & Hbefore & Hafter).
  fold loops best in Hsplit, Hbefore, Hafter.
  split; [rewrite Hsplit; apply in_elt | ].
  split; [ | exists before, after; auto].
  rewrite Hsplit. apply Forall_app. split.
  - eapply Forall_impl; [ | exact Hbefore]. intros l. apply Qclt_le_weak.
  - constructor; [apply Qcle_refl | exact Hafter].
Qed.

(** With the boxes no farther than their loops, the scan of [closestPoint]
    keeps step with the scan of [closestLoop]. *)
Lemma closestPoint_scan (targetPoint : Point) (rest : list Polyline) (best : Polyline) :
  forallb (fun loop => num_leb (boxDistance targetPoint loop)
                               (loopDistance targetPoint loop)) rest = true ->
  fold_left (closestPointStep targetPoint) rest
    (Some (loopDistance targetPoint best), Polyline_closestPoint best targetPoint)
  = (let final := fold_left (closestLoopStep targetPoint) rest
                    (Some (loopDistance targetPoint best), best) in
     (fst final, Polyline_closestPoint (snd final) targetPoint)).
Proof.
  revert best. induction rest as [ | c rest IH]; intros best Hbound; [reflexivity | ].
  cbn [forallb] in Hbound. apply andb_true_iff in Hbound as [Hc Hrest].
  apply num_leb_le in Hc.
  cbn [fold_left]. rewrite closestPointStep_some, closestLoopStep_some.
  destruct (num_ltb (loopDistance targetPoint c) (loopDistance targetPoint best)) eqn:E.
  - assert (num_ltb (loopDistance targetPoint best) (boxDistance targetPoint c) = false)
      as ->.
    { apply num_ltb_ge. apply num_ltb_lt in E.
      eapply Qcle_trans; [exact Hc | apply Qclt_le_weak, E]. }
    apply IH, Hrest.
  - destruct (num_ltb (loopDistance targetPoint best) (boxDistance targetPoint c));
      apply IH, Hrest.
Qed.

Lemma closestPoint_scan_member
  (targetPoint : Point) (rest : list Polyline) (state : option num * Point) :
  let final := fold_left (closestPointStep targetPoint) rest state in
  snd final = snd state
  \/ In (snd final) (map (fun l => Polyline_closestPoint l targetPoint) rest).
Proof.
  revert state. induction rest as [ | c rest IH]; intros state; cbn zeta.
  - left. reflexivity.
  - cbn [fold_left map].
    destruct (IH (closestPointStep targetPoint state c)) as [H | H].
    + rewrite H. destruct state as [[d | ] best].
      * rewrite closestPointStep_some.
        destruct (num_ltb d _); [left; reflexivity | ].
        destruct (num_ltb _ d); [right; left; reflexivity | left; reflexivity].
      * rewrite closestPointStep_none. right. left. reflexivity.
    + right. right. exact H.
Qed.

(** X6: [closestPoint] returns the point itself when the polygon contains
    it, and otherwise the point or the closest point of one of the loops.
    When no loop is nearer to the point than its bounding box, skipping
    loops by their boxes loses nothing: the result is the closest point of
    the loop that [closestLoop] returns, and no loop has a point nearer. *)
Theorem closestPoint_on_closestLoop (p : Polygon) (targetPoint : Point) :
  (Polygon_contains p targetPoint None = inside ->
   Polygon_closestPoint p targetPoint = targetPoint)
  /\ In (Polygon_closestPoint p targetPoint)
        (targetPoint :: map (fun l => Polyline_closestPoint l targetPoint)
                            (Polygon_boundary p :: Polygon_holes p))
  /\ (Polygon_contains p targetPoint None <> inside ->
      boxesBound p targetPoint = true ->
      Polygon_closestPoint p targetPoint
      = Polyline_closestPoint (Polygon_closestLoop p targetPoint) targetPoint
      /\ Forall (fun l => Point_distanceTo targetPoint (Polygon_closestPoint p targetPoint)
                          <= loopDistance targetPoint l)
                (Polygon_boundary p :: Polygon_holes p)).
Proof.
  unfold Polygon_closestPoint. split; [ | split].
  - intros ->. reflexivity.
  - destruct (PointContainment_eqb _ inside); [left; reflexivity | ].
    destruct (closestPoint_scan_member targetPoint (_boundary p :: _holes p)
                (None, targetPoint)) as [H | H].
    + left. symmetry. exact H.
    + right. exact H.
  - intros Hout Hbound.
    assert (PointContainment_eqb (Polygon_contains p targetPoint None) inside = false) as ->.
    { destruct (Polygon_contains p targetPoint None); try reflexivity. congruence. }
    unfold boxesBound in Hbound. cbn [forallb] in Hbound.
    apply andb_true_iff in Hbound as [_ Hrest].
    assert (Hpoint :
              snd (fold_left (closestPointStep targetPoint) (_boundary p :: _holes p)
                     (None, targetPoint))
              = Polyline_closestPoint (Polygon_closestLoop p targetPoint) targetPoint).
    { unfold Polygon_closestLoop, Polygon_boundary, Polygon_holes. cbn [fold_left].
      rewrite closestPointStep_none, closestLoopStep_none.
      rewrite (closestPoint_scan _ _ _ Hrest). reflexivity. }
    split; [exact Hpoint | ]. rewrite Hpoint.
    fold (loopDistance targetPoint (Polygon_closestLoop p targetPoint)).
    destruct (closestLoop_split p targetPoint)
      as (before & after & Hsplit & Hbefore & Hafter).
    rewrite Hsplit. apply Forall_app. split.
    + eapply Forall_impl; [ | exact Hbefore]. intros l. apply Qclt_le_weak.
    + constructor; [apply Qcle_refl | exact Hafter].
Qed.

End PolygonMethodFacts.

Section PolygonRingFacts.
Context {C : Collaborators}.

Lemma newHoles_canonical (holes : list Polyline) :
  Forall (fun hole => Polyline_withOrientation hole clockwise = hole) holes ->
  forallb Polyline_isClosed holes = true ->
  newHoles holes = Ok holes.
Proof.
  intros Hcanon Hclosed. rewrite (newHoles_closed _ Hclosed). f_equal.
  induction Hcanon as [ | h rest Hh _ IH]; simpl; [reflexivity | ].
  simpl in Hclosed. apply andb_true_iff in Hclosed as [_ Hrest].
  rewrite Hh, (IH Hrest). reflexivity.
Qed.

(** X7: a polygon goes to rings and comes back: [asGeoJSON] is never empty
    (the boundary's ring, then one ring per hole, in order), and
    [fromCoords] rebuilds the same polygon from it whenever every loop
    comes back closed from its own ring and is already wound the way the
    constructor winds it. *)
Theorem Polygon_rings_round_trip (p : Polygon) :
  Forall survivesGeoJSON (Polygon_boundary p :: Polygon_holes p) ->
  canonical p ->
  List.length (Polygon_asGeoJSON p) = S (List.length (Polygon_holes p))
  /\ Polygon_fromCoords (Polygon_asGeoJSON p) = Ok p.
Proof.
  destruct p as [boundary holes]. unfold canonical, Polygon_asGeoJSON,
    Polygon_boundary, Polygon_holes. cbn [_boundary _holes].
  intros Hsurvive [Hb Hh]. split; [simpl; rewrite length_map; reflexivity | ].
  inversion Hsurvive as [ | ? ? [Hrb Hcb] Hholes]; subst.
  assert (Hmap : map Polyline_fromCoords (map Polyline_asGeoJSON holes) = holes).
  { clear Hh. induction Hholes as [ | h rest [Hr _] _ IH]; simpl; [reflexivity | ].
    rewrite Hr, IH; [reflexivity | ].
    constructor; [split; assumption | ]. inversion Hsurvive as [ | ? ? _ Hs]; subst.
    inversion Hs; assumption. }
  assert (Hclosed : forallb Polyline_isClosed holes = true).
  { apply forallb_forall. intros h Hin. rewrite Forall_forall in Hholes.
    apply Hholes, Hin. }
  unfold Polygon_fromCoords.
  destruct holes as [ | h rest].
  - simpl. unfold Polygon_new. rewrite Hrb, Hcb, Hb. reflexivity.
  - change (map Polyline_asGeoJSON (h :: rest))
      with (Polyline_asGeoJSON h :: map Polyline_asGeoJSON rest).
    cbv iota beta.
    change (Polyline_asGeoJSON h :: map Polyline_asGeoJSON rest)
      with (map Polyline_asGeoJSON (h :: rest)).
    rewrite Hmap. unfold Polygon_new. rewrite Hrb, Hcb, Hb. simpl negb. cbv iota.
    rewrite (newHoles_canonical Hh Hclosed). reflexivity.
Qed.

(** X8: [toMulti] fails on exactly two operands, the empty list of
    polylines and the empty list of polygons.  A polyline becomes a polygon
    of one ring, a polygon its rings; a list that is not empty becomes a
    multi-polygon with one entry per element, in order. *)
Theorem toMulti_fails_on_empty_lists_only (input : BooleanInput) :
  ((exists e, toMulti input = Throw e)
   <-> input = InPolylineArray [] \/ input = InPolygonArray [])
  /\ match input with
     | InPolyline polyline =>
         toMulti input = Ok (ClipPolygon [Polyline_asGeoJSON polyline])
     | InPolygon polygon =>
         toMulti input = Ok (ClipPolygon (Polygon_asGeoJSON polygon))
     | InPolylineArray (first :: rest) =>
         toMulti input
         = Ok (ClipMulti (map (fun polyline => [Polyline_asGeoJSON polyline])
                              (first :: rest)))
     | InPolygonArray (first :: rest) =>
         toMulti input = Ok (ClipMulti (map Polygon_asGeoJSON (first :: rest)))
     | _ => toMulti input = Throw (Error "Couldn't convert geometry for boolean")
     end.
Proof.
  split.
  - destruct input as [p | p | [ | p l] | [ | p l]]; simpl; split;
      try (intros [e He]; discriminate);
      try (intros [H | H]; discriminate);
      eauto.
  - destruct input as [p | p | [ | p l] | [ | p l]]; reflexivity.
Qed.

Lemma fromCoords_throws (rings : list Ring) (e : JsError) :
  hasRings rings = true -> Polygon_fromCoords rings = Throw e ->
  forallb closedRing rings = false /\ invalidGeometry e.
Proof.
  unfold Polygon_fromCoords, Polygon_new, invalidGeometry, closedRing.
  destruct rings as [ | r0 [ | r1 rest]]; [discriminate | | ]; intros _.
  - simpl. destruct (Polyline_isClosed (Polyline_fromCoords r0)); simpl;
      [discriminate | ].
    intros [= <-]. auto.
  - cbn [forallb].
    destruct (Polyline_isClosed (Polyline_fromCoords r0)); simpl negb; cbv iota;
      [ | intros [= <-]; auto].
    destruct (forallb Polyline_isClosed (map Polyline_fromCoords (r1 :: rest))) eqn:E.
    + rewrite (newHoles_closed _ E). discriminate.
    + rewrite (newHoles_open _ E). simpl. intros [= <-].
      rewrite forallb_after_map in E. simpl in *. rewrite E. auto.
Qed.

Lemma fromGeoJSON_cases (multi : list (list Ring)) :
  match fromGeoJSON multi with
  | Ok outputs =>
      forallb (forallb closedRing) multi = true
      /\ List.length outputs = List.length (filter hasRings multi)
  | Throw e =>
      forallb (forallb closedRing) multi = false /\ invalidGeometry e
  end.
Proof.
  induction multi as [ | rings rest IH]; [simpl; auto | ].
  rewrite fromGeoJSON_cons. cbn [forallb filter].
  destruct (hasRings rings) eqn:E.
  - destruct (Polygon_fromCoords rings) as [p | e] eqn:Ep; cbn [bind].
    + assert (Hr : forallb closedRing rings = true).
      { destruct (forallb closedRing rings) eqn:Ec; [reflexivity | ].
        exfalso. destruct rings as [ | r0 more]; [discriminate | ].
        unfold Polygon_fromCoords, Polygon_new, closedRing in *.
        cbn [forallb] in Ec. apply andb_false_iff in Ec as [Ec | Ec].
        - destruct more; rewrite Ec in Ep; discriminate.
        - destruct more as [ | r1 more']; [discriminate | ].
          destruct (negb (Polyline_isClosed (Polyline_fromCoords r0))); [discriminate | ].
          rewrite <- forallb_after_map in Ec.
          rewrite (newHoles_open _ Ec) in Ep. discriminate. }
      rewrite Hr. destruct (fromGeoJSON rest) as [ps | e]; cbn [bind].
      * destruct IH as [IH1 IH2]. simpl. rewrite IH1, IH2. auto.
      * destruct IH as [IH1 IH2]. rewrite IH1, andb_false_r. auto.
    + destruct (fromCoords_throws rings E Ep) as [Hr Hinv]. rewrite Hr. auto.
  - destruct rings; [ | discriminate]. simpl. exact IH.
Qed.

(** X9: [fromGeoJSON] returns polygons exactly when every ring of the
    clipping result is closed, and then one polygon per ring-set that has
    rings.  When it throws, the error is the constructor's invalid-geometry
    error: a ring-set without rings is skipped before [fromCoords] could
    raise its RangeError. *)
Theorem fromGeoJSON_outcome (multi : list (list Ring)) :
  ((exists outputs, fromGeoJSON multi = Ok outputs)
   <-> forallb (forallb closedRing) multi = true)
  /\ (forall outputs, fromGeoJSON multi = Ok outputs ->
                      List.length outputs = List.length (filter hasRings multi))
  /\ (forall e, fromGeoJSON multi = Throw e -> invalidGeometry e).
Proof.
  pose proof (fromGeoJSON_cases multi) as H.
  destruct (fromGeoJSON multi) as [outputs | e].
  - destruct H as [Hc Hl]. split; [split; eauto | ].
    split; [intros o [= <-]; exact Hl | discriminate].
  - destruct H as [Hc Hi]. split.
    + split; [intros [o Ho]; discriminate | congruence].
    + split; [discriminate | intros e' [= <-]; exact Hi].
Qed.

(** X18: the only errors [union], [intersection] and [difference] raise
    are the conversion error, for an empty list as operand, and the
    constructor's invalid-geometry error, for a clipping result with a ring
    that is not closed; they never raise the RangeError of [fromCoords]. *)
Theorem boolean_operations_errors
  (clip : Clip) (op : Clip -> Polygon -> BooleanInput -> Res (list Polygon))
  (this : Polygon) (operand : BooleanInput) (e : JsError) :
  In op [Polygon_union; Polygon_intersection; Polygon_difference] ->
  op clip this operand = Throw e ->
  (e = Error "Couldn't convert geometry for boolean"
   /\ (operand = InPolylineArray [] \/ operand = InPolygonArray []))
  \/ (invalidGeometry e
      /\ exists other,
           toMulti operand = Ok other
           /\ forallb (forallb closedRing) (clip (Polygon_asGeoJSON this) other) = false).
Proof.
  intros Hop Hrun.
  assert (op clip this operand
          = (other <- toMulti operand ;;
             fromGeoJSON (clip (Polygon_asGeoJSON this) other))) as Hdef.
  { destruct Hop as [<- | [<- | [<- | []]]]; reflexivity. }
  rewrite Hdef in Hrun. clear Hdef Hop.
  destruct (toMulti operand) as [other | e0] eqn:Em; cbn [bind] in Hrun.
  - right. pose proof (fromGeoJSON_cases (clip (Polygon_asGeoJSON this) other)) as H.
    rewrite Hrun in H. destruct H as [Hc Hi]. split; [exact Hi | eauto].
  - left. injection Hrun as <-.
    destruct operand as [p | p | [ | p l] | [ | p l]]; simpl in Em;
      try discriminate; injection Em as <-; auto.
Qed.

End PolygonRingFacts.

(* ------------------------------------------------------------------ *)
(** ** Further facts: intersection/meta.ts *)

Section MoreDispatchFacts.
Context {C : Collaborators}.

Lemma sort_length (l : list num) : List.length (sort l) = List.length l.
Proof. apply Permutation_length, Permutation_sym, sort_perm. Qed.

Lemma linePolyline_in (theLine : Line) (loop : Polyline) (t : num) :
  In t (linePolyline theLine loop) <-> lineHits theLine loop t.
Proof.
  unfold linePolyline, lineHits. rewrite in_flat_map. split.
  - intros (edge & Hin & Ht). exists edge. split; [exact Hin | ].
    cbv zeta in Ht. destruct (ll_intersects (lineLine theLine edge));
      [destruct Ht as [Ht | []]; auto | contradiction].
  - intros (edge & Hin & Hhit & Ht). exists edge. split; [exact Hin | ].
    cbv zeta. rewrite Hhit. left. exact Ht.
Qed.

Lemma rayPolyline_in (theRay : Ray) (loop : Polyline) (t : num) :
  In t (rayPolyline theRay loop) <-> rayHits theRay loop t.
Proof.
  unfold rayPolyline, rayHits. rewrite in_flat_map. split.
  - intros (edge & Hin & Ht). exists edge. split; [exact Hin | ].
    cbv zeta in Ht. destruct (rl_intersects (rayLine theRay edge None));
      [destruct Ht as [Ht | []]; auto | contradiction].
  - intros (edge & Hin & Hhit & Ht). exists edge. split; [exact Hin | ].
    cbv zeta. rewrite Hhit. left. exact Ht.
Qed.

(** X10: what [line] and [ray] report for a Polyline target are the hits on
    its segments, and only behind the box test: [t] is in the result
    exactly when the query meets the polyline's bounding box and some
    segment is hit at the query's parameter [t].  A BoundingBox or
    Rectangle target gives, for [line] and for [ray], what its boundary
    polyline [toPolyline()] gives. *)
Theorem polyline_target_hits
  (theLine : Line) (theRay : Ray) (loop : Polyline) (t : num) :
  (In t (line theLine (GPolyline loop))
   <-> box_intersects (lineBox theLine (Polyline_boundingBox loop)) = true
       /\ lineHits theLine loop t)
  /\ (In t (ray theRay (GPolyline loop))
      <-> box_intersects (rayBox theRay (Polyline_boundingBox loop)) = true
          /\ rayHits theRay loop t)
  /\ (forall b,
        line theLine (GBoundingBox b)
        = line theLine (GPolyline (BoundingBox_toPolyline b))
        /\ ray theRay (GBoundingBox b)
           = ray theRay (GPolyline (BoundingBox_toPolyline b)))
  /\ (forall r,
        line theLine (GRectangle r)
        = line theLine (GPolyline (Rectangle_toPolyline r))
        /\ ray theRay (GRectangle r)
           = ray theRay (GPolyline (Rectangle_toPolyline r))).
Proof.
  split; [ | split; [ | split]].
  - cbn [line]. unfold line_Polyline. cbv zeta. rewrite sort_in.
    destruct (box_intersects _).
    + rewrite linePolyline_in. tauto.
    + simpl. split; [contradiction | intros [H _]; discriminate].
  - cbn [ray]. unfold ray_Polyline. cbv zeta. rewrite sort_in.
    destruct (box_intersects _).
    + rewrite rayPolyline_in. tauto.
    + simpl. split; [contradiction | intros [H _]; discriminate].
  - intros b. split; reflexivity.
  - intros r. split; reflexivity.
Qed.

(** X19: what [line] and [ray] report for a Polygon target are hits on its
    loops behind two box tests: [t] is in the result exactly when the query
    meets the boundary's bounding box and [t] is a hit on the boundary, or
    a hit on a hole whose own bounding box the query meets as well. *)
Theorem polygon_target_hits (theLine : Line) (theRay : Ray) (p : Polygon) (t : num) :
  (In t (line theLine (GPolygon p))
   <-> box_intersects (lineBox theLine (Polyline_boundingBox (Polygon_boundary p))) = true
       /\ (lineHits theLine (Polygon_boundary p) t
           \/ exists hole,
                In hole (Polygon_holes p)
                /\ box_intersects (lineBox theLine (Polyline_boundingBox hole)) = true
                /\ lineHits theLine hole t))
  /\ (In t (ray theRay (GPolygon p))
      <-> box_intersects (rayBox theRay (Polyline_boundingBox (Polygon_boundary p))) = true
          /\ (rayHits theRay (Polygon_boundary p) t
              \/ exists hole,
                   In hole (Polygon_holes p)
                   /\ box_intersects (rayBox theRay (Polyline_boundingBox hole)) = true
                   /\ rayHits theRay hole t)).
Proof.
  split.
  - cbn [line]. unfold line_Polygon. cbv zeta. rewrite sort_in.
    destruct (box_intersects (lineBox theLine (Polyline_boundingBox (Polygon_boundary p)))).
    + rewrite in_app_iff, in_flat_map, linePolyline_in. split.
      * intros [H | (hole & Hin & Ht)]; (split; [reflexivity | ]); [left; exact H | ].
        right. exists hole. destruct (box_intersects _); [ | contradiction].
        apply linePolyline_in in Ht. auto.
      * intros [_ [H | (hole & Hin & Hbox & Ht)]]; [left; exact H | ].
        right. exists hole. rewrite Hbox. apply linePolyline_in in Ht. auto.
    + simpl. split; [contradiction | intros [H _]; discriminate].
  - cbn [ray]. unfold ray_Polygon. cbv zeta. rewrite sort_in.
    destruct (box_intersects (rayBox theRay (Polyline_boundingBox (Polygon_boundary p)))).
    + rewrite in_app_iff, in_flat_map, rayPolyline_in. split.
      * intros [H | (hole & Hin & Ht)]; (split; [reflexivity | ]); [left; exact H | ].
        right. exists hole. destruct (box_intersects _); [ | contradiction].
        apply rayPolyline_in in Ht. auto.
      * intros [_ [H | (hole & Hin & Hbox & Ht)]]; [left; exact H | ].
        right. exists hole. rewrite Hbox. apply rayPolyline_in in Ht. auto.
    + simpl. split; [contradiction | intros [H _]; discriminate].
Qed.

Lemma flat_map_at_most_one {A : Type} (f : A -> list num) (l : list A) :
  (forall a, (List.length (f a) <= 1)%nat) ->
  (List.length (flat_map f l) <= List.length l)%nat.
Proof.
  intros H. induction l as [ | a r IH]; simpl; [lia | ].
  rewrite length_app. specialize (H a). lia.
Qed.

Lemma linePolyline_length (theLine : Line) (loop : Polyline) :
  (List.length (linePolyline theLine loop) <= List.length (Polyline_segments loop))%nat.
Proof.
  apply flat_map_at_most_one. intros edge. cbv zeta.
  destruct (ll_intersects _); simpl; lia.
Qed.

Lemma rayPolyline_length (theRay : Ray) (loop : Polyline) :
  (List.length (rayPolyline theRay loop) <= List.length (Polyline_segments loop))%nat.
Proof.
  apply flat_map_at_most_one. intros edge. cbv zeta.
  destruct (rl_intersects _); simpl; lia.
Qed.

Lemma hole_hits_length (theLine : Line) (holes : list Polyline) :
  (List.length
     (flat_map (fun hole =>
                  let holeResult := lineBox theLine (Polyline_boundingBox hole) in
                  if box_intersects holeResult then linePolyline theLine hole else [])
               holes)
   <= List.length (flat_map Polyline_segments holes))%nat.
Proof.
  induction holes as [ | h rest IH]; [simpl; lia | ].
  cbn [flat_map]. cbv zeta in *. rewrite !length_app.
  pose proof (linePolyline_length theLine h).
  destruct (box_intersects _); [lia | cbn [List.length]; lia].
Qed.

Lemma ray_hole_hits_length (theRay : Ray) (holes : list Polyline) :
  (List.length
     (flat_map (fun hole =>
                  let holeResult := rayBox theRay (Polyline_boundingBox hole) in
                  if box_intersects holeResult then rayPolyline theRay hole else [])
               holes)
   <= List.length (flat_map Polyline_segments holes))%nat.
Proof.
  induction holes as [ | h rest IH]; [simpl; lia | ].
  cbn [flat_map]. cbv zeta in *. rewrite !length_app.
  pose proof (rayPolyline_length theRay h).
  destruct (box_intersects _); [lia | cbn [List.length]; lia].
Qed.

Lemma line_Polyline_length (theLine : Line) (loop : Polyline) :
  (List.length (line_Polyline theLine loop) <= List.length (Polyline_segments loop))%nat.
Proof.
  unfold line_Polyline. cbv zeta. rewrite sort_length.
  destruct (box_intersects _); [apply linePolyline_length | simpl; lia].
Qed.

Lemma ray_Polyline_length (theRay : Ray) (loop : Polyline) :
  (List.length (ray_Polyline theRay loop) <= List.length (Polyline_segments loop))%nat.
Proof.
  unfold ray_Polyline. cbv zeta. rewrite sort_length.
  destruct (box_intersects _); [apply rayPolyline_length | simpl; lia].
Qed.

(** X11: [line] and [ray] never report more hits than there is geometry to
    hit: at most one parameter for a Point, Line or Ray target; at most one
    per segment for a Polyline target and for the boundary polyline of a
    BoundingBox or Rectangle target; at most one per segment of the
    boundary and the holes together for a Polygon target; as many as the
    solver lists for a Circle target; as many as the elements give
    together for a list target; none for a target of no recognised kind. *)
Theorem hits_bounded_by_segments (theLine : Line) (theRay : Ray) (g : Geom) :
  match g with
  | GPoint _ | GLine _ | GRay _ =>
      (List.length (line theLine g) <= 1)%nat /\ (List.length (ray theRay g) <= 1)%nat
  | GPolyline loop =>
      (List.length (line theLine g) <= List.length (Polyline_segments loop))%nat
      /\ (List.length (ray theRay g) <= List.length (Polyline_segments loop))%nat
  | GBoundingBox b =>
      (List.length (line theLine g)
       <= List.length (Polyline_segments (BoundingBox_toPolyline b)))%nat
      /\ (List.length (ray theRay g)
          <= List.length (Polyline_segments (BoundingBox_toPolyline b)))%nat
  | GRectangle r =>
      (List.length (line theLine g)
       <= List.length (Polyline_segments (Rectangle_toPolyline r)))%nat
      /\ (List.length (ray theRay g)
          <= List.length (Polyline_segments (Rectangle_toPolyline r)))%nat
  | GPolygon p =>
      (List.length (line theLine g)
       <= List.length (flat_map Polyline_segments
                         (Polygon_boundary p :: Polygon_holes p)))%nat
      /\ (List.length (ray theRay g)
          <= List.length (flat_map Polyline_segments
                            (Polygon_boundary p :: Polygon_holes p)))%nat
  | GCircle c =>
      List.length (line theLine g) = List.length (u (lineCircle theLine c))
      /\ List.length (ray theRay g) = List.length (u (rayCircle theRay c))
  | GArray elements =>
      List.length (line theLine g) = List.length (flat_map (line theLine) elements)
      /\ List.length (ray theRay g) = List.length (flat_map (ray theRay) elements)
  | GOther _ =>
      List.length (line theLine g) = 0%nat /\ List.length (ray theRay g) = 0%nat
  end.
Proof.
  destruct g as [pt | l | r | b | c | r | loop | p | elements | v].
  - simpl. split.
    + destruct (Point_equals _ _); simpl; lia.
    + destruct (Point_equals _ _); simpl; lia.
  - simpl. split.
    + destruct (ll_intersects _); simpl; lia.
    + destruct (rl_intersects _); simpl; lia.
  - simpl. split.
    + destruct (rl_intersects _); simpl; lia.
    + destruct (rr_intersects _); simpl; lia.
  - cbn [line ray]. split; [apply line_Polyline_length | apply ray_Polyline_length].
  - split; reflexivity.
  - cbn [line ray]. split; [apply line_Polyline_length | apply ray_Polyline_length].
  - cbn [line ray]. split; [apply line_Polyline_length | apply ray_Polyline_length].
  - cbn [line ray]. unfold line_Polygon, ray_Polygon. cbv zeta.
    rewrite !sort_length. split.
    + destruct (box_intersects _); [ | simpl; lia].
      cbn [flat_map]. rewrite !length_app.
      pose proof (linePolyline_length theLine (Polygon_boundary p)).
      pose proof (hole_hits_length theLine (Polygon_holes p)). cbv zeta in *. lia.
    + destruct (box_intersects _); [ | simpl; lia].
      cbn [flat_map]. rewrite !length_app.
      pose proof (rayPolyline_length theRay (Polygon_boundary p)).
      pose proof (ray_hole_hits_length theRay (Polygon_holes p)). cbv zeta in *. lia.
  - cbn [line ray]. rewrite !sort_length. split; reflexivity.
  - split; reflexivity.
Qed.

Lemma linePolyline_no_hits (theLine : Line) (loop : Polyline) :
  forallb (fun edge => negb (ll_intersects (lineLine theLine edge)))
          (Polyline_segments loop) = true ->
  linePolyline theLine loop = [].
Proof.
  unfold linePolyline. induction (Polyline_segments loop) as [ | edge rest IH]; simpl;
    [reflexivity | ].
  intros H. apply andb_true_iff in H as [He Hrest].
  apply negb_true_iff in He. rewrite He. simpl. apply IH, Hrest.
Qed.

Lemma rejectSound_hits (theLine : Line) (loop : Polyline) :
  rejectSound theLine loop = true ->
  (if box_intersects (lineBox theLine (Polyline_boundingBox loop))
   then linePolyline theLine loop else [])
  = linePolyline theLine loop.
Proof.
  unfold rejectSound. destruct (box_intersects _); simpl; [reflexivity | ].
  intros H. symmetry. apply linePolyline_no_hits, H.
Qed.

(** X16: the box tests of [line] only save work when they are sound.  If a
    polyline's segments are not hit whenever its box is missed, the result
    is the sorted list of all segment hits; for a polygon whose loops are
    so and whose holes' boxes are missed whenever the boundary's is, the
    result is the sorted list of all hits on the boundary and the holes. *)
Theorem sound_rejects_lose_nothing (theLine : Line) (p : Polygon) :
  forallb (rejectSound theLine) (Polygon_boundary p :: Polygon_holes p) = true ->
  boxesNested theLine p = true ->
  line theLine (GPolyline (Polygon_boundary p))
  = sort (linePolyline theLine (Polygon_boundary p))
  /\ line theLine (GPolygon p)
     = sort (flat_map (linePolyline theLine) (Polygon_boundary p :: Polygon_holes p)).
Proof.
  cbn [forallb]. intros Hsound Hnested.
  apply andb_true_iff in Hsound as [Hb Hholes].
  split.
  - cbn [line]. unfold line_Polyline. cbv zeta. rewrite (rejectSound_hits _ _ Hb).
    reflexivity.
  - cbn [line flat_map]. unfold line_Polygon. cbv zeta. f_equal.
    assert (Hsame :
              flat_map (fun hole =>
                          if box_intersects (lineBox theLine (Polyline_boundingBox hole))
                          then linePolyline theLine hole else [])
                       (Polygon_holes p)
              = flat_map (linePolyline theLine) (Polygon_holes p)).
    { clear Hnested. induction (Polygon_holes p) as [ | h rest IH]; [reflexivity | ].
      cbn [forallb] in Hholes. apply andb_true_iff in Hholes as [Hh Hrest].
      cbn [flat_map]. rewrite (rejectSound_hits _ _ Hh), (IH Hrest). reflexivity. }
    unfold boxesNested in Hnested. unfold rejectSound in Hb.
    destruct (box_intersects (lineBox theLine (Polyline_boundingBox (Polygon_boundary p)))).
    + rewrite Hsame. reflexivity.
    + simpl in Hb, Hnested. rewrite (linePolyline_no_hits _ _ Hb). simpl.
      symmetry. clear Hsame.
      induction (Polygon_holes p) as [ | h rest IH]; [reflexivity | ].
      cbn [forallb] in Hholes, Hnested.
      apply andb_true_iff in Hholes as [Hh Hrest].
      apply andb_true_iff in Hnested as [Hn Hnrest].
      cbn [flat_map]. rewrite (IH Hrest Hnrest), app_nil_r.
      unfold rejectSound in Hh. apply negb_true_iff in Hn. rewrite Hn in Hh.
      apply linePolyline_no_hits, Hh.
Qed.

End MoreDispatchFacts.

Section PolylineDispatchFacts.
Context {C : Collaborators}.

Lemma pushEach_app {A B : Type} (f : A -> Res (list B)) (l1 l2 : list A) :
  pushEach f (l1 ++ l2)
  = (a <- pushEach f l1 ;; b <- pushEach f l2 ;; Ok (a ++ b)).
Proof.
  induction l1 as [ | x r IH]; simpl.
  - destruct (pushEach f l2); reflexivity.
  - destruct (f x) as [h | e]; simpl; [ | reflexivity].
    rewrite IH. destruct (pushEach f r) as [a | e]; simpl; [ | reflexivity].
    destruct (pushEach f l2) as [b | e]; simpl; [ | reflexivity].
    rewrite app_assoc. reflexivity.
Qed.

(** Where [polyline] throws and where it returns. *)
Lemma polyline_by_nullish (thePolyline : Polyline) (g : Geom) :
  if hasNullish g then polyline thePolyline g = Throw TypeError
  else exists ps, polyline thePolyline g = Ok ps.
Proof.
  induction g as [g Hleaf | elements IH] using Geom_induction.
  - destruct g as [ | | | | | | | | | [ | b]]; try contradiction; cbn [hasNullish];
      try reflexivity; apply polyline_leaf_total; exact I.
  - cbn [hasNullish polyline].
    assert (Hloop : if existsb hasNullish elements
                    then pushEach (polyline thePolyline) elements = Throw TypeError
                    else exists all, pushEach (polyline thePolyline) elements = Ok all).
    { induction IH as [ | g rest Hg _ IHrest]; simpl; [eauto | ].
      destruct (hasNullish g); simpl.
      - rewrite Hg. reflexivity.
      - destruct Hg as [ps ->]. simpl.
        destruct (existsb hasNullish rest).
        + rewrite IHrest. reflexivity.
        + destruct IHrest as [all ->]. simpl. eauto. }
    destruct (existsb hasNullish elements).
    + rewrite Hloop. reflexivity.
    + destruct Hloop as [all ->]. simpl. eauto.
Qed.

Lemma polyline_throws_TypeError (thePolyline : Polyline) (g : Geom) (e : JsError) :
  polyline thePolyline g = Throw e -> e = TypeError.
Proof.
  pose proof (polyline_by_nullish thePolyline g) as H.
  destruct (hasNullish g); [congruence | ].
  destruct H as [ps ->]. discriminate.
Qed.

Lemma polyline_ascending (thePolyline : Polyline) (g : Geom) (ps : list num) :
  polyline thePolyline g = Ok ps -> ascending ps.
Proof.
  destruct g as [ | | | | | | | | elements | v]; intros Hps;
    try (apply polyline_leaf in Hps; [ | exact I];
         destruct Hps as [-> | ->]; [apply Sorted_nil | apply sort_ascending]).
  simpl in Hps. destruct (pushEach _ elements); [ | discriminate].
  injection Hps as <-. apply sort_ascending.
Qed.

Lemma pushEach_perm (f : Geom -> Res (list num)) (l l' : list Geom) :
  (forall g e, f g = Throw e -> e = TypeError) ->
  Permutation l l' ->
  match pushEach f l, pushEach f l' with
  | Ok a, Ok b => Permutation a b
  | Throw e, Throw e' => e = e'
  | _, _ => False
  end.
Proof.
  intros Hf. induction 1 as [ | x l l' _ IH | x y l | l l' l'' _ IH1 _ IH2].
  - simpl. constructor.
  - simpl. destruct (f x) as [a | e]; simpl; [ | reflexivity].
    destruct (pushEach f l), (pushEach f l'); simpl; try contradiction.
    + apply Permutation_app_head, IH.
    + exact IH.
  - simpl. destruct (f x) as [a | ex] eqn:Ex, (f y) as [b | ey] eqn:Ey; simpl;
      try reflexivity.
    + destruct (pushEach f l); simpl; [ | reflexivity].
      rewrite !app_assoc. apply Permutation_app_tail, Permutation_app_comm.
    + rewrite (Hf _ _ Ex), (Hf _ _ Ey). reflexivity.
  - destruct (pushEach f l), (pushEach f l'), (pushEach f l''); try contradiction.
    + eapply perm_trans; eassumption.
    + congruence.
Qed.

(** X12: a list target is a bag of targets.  For [line], [ray] and
    [polyline] alike, the result does not depend on the order of the
    list's elements, a list inside the list may be spliced into it, and
    for [polyline] a list of one target gives what the target gives. *)
Theorem list_target_is_a_bag
  (theLine : Line) (theRay : Ray) (thePolyline : Polyline)
  (l l' inner : list Geom) (g : Geom) :
  Permutation l l' ->
  line theLine (GArray l) = line theLine (GArray l')
  /\ ray theRay (GArray l) = ray theRay (GArray l')
  /\ polyline thePolyline (GArray l) = polyline thePolyline (GArray l')
  /\ line theLine (GArray (GArray inner :: l)) = line theLine (GArray (inner ++ l))
  /\ ray theRay (GArray (GArray inner :: l)) = ray theRay (GArray (inner ++ l))
  /\ polyline thePolyline (GArray (GArray inner :: l))
     = polyline thePolyline (GArray (inner ++ l))
  /\ polyline thePolyline (GArray [g]) = polyline thePolyline g.
Proof.
  intros Hp. repeat match goal with |- _ /\ _ => split end.
  - cbn [line]. apply sort_of_perm, Permutation_flat_map, Hp.
  - cbn [ray]. apply sort_of_perm, Permutation_flat_map, Hp.
  - cbn [polyline].
    pose proof (pushEach_perm (polyline thePolyline)
                  (polyline_throws_TypeError thePolyline) Hp) as H.
    destruct (pushEach _ l), (pushEach _ l'); try contradiction; simpl.
    + f_equal. apply sort_of_perm, H.
    + congruence.
  - cbn [line flat_map]. rewrite flat_map_app. apply sort_of_perm.
    apply Permutation_app_tail, Permutation_sym, sort_perm.
  - cbn [ray flat_map]. rewrite flat_map_app. apply sort_of_perm.
    apply Permutation_app_tail, Permutation_sym, sort_perm.
  - cbn [polyline pushEach]. rewrite pushEach_app.
    destruct (pushEach _ inner) as [a | e]; simpl; [ | reflexivity].
    destruct (pushEach _ l) as [b | e]; simpl; [ | reflexivity].
    f_equal. apply sort_of_perm.
    apply Permutation_app_tail, Permutation_sym, sort_perm.
  - cbn [polyline pushEach].
    destruct (polyline thePolyline g) as [ps | e] eqn:E; simpl; [ | reflexivity].
    rewrite app_nil_r. f_equal. apply sort_fixes_ascending.
    eapply polyline_ascending, E.
Qed.

Lemma uniqueFrom_NoDup (seen l : list num) :
  NoDup (uniqueFrom seen l)
  /\ forall a, In a (uniqueFrom seen l) -> ~ In a seen.
Proof.
  revert seen. induction l as [ | b r IH]; intros seen; simpl.
  - split; [constructor | contradiction].
  - destruct (existsb (num_eqb b) seen) eqn:E.
    + apply IH.
    + assert (Hb : ~ In b seen).
      { intros Hin. assert (existsb (num_eqb b) seen = true); [ | congruence].
        apply existsb_exists. exists b. split; [exact Hin | apply num_eqb_eq; reflexivity]. }
      destruct (IH (b :: seen)) as [Hnd Hout]. split.
      * constructor; [ | exact Hnd]. intros Hin. apply (Hout _ Hin). left. reflexivity.
      * intros a [<- | Hin]; [exact Hb | ].
        intros Hs. apply (Hout _ Hin). right. exact Hs.
Qed.

Lemma uniqueFrom_complete (seen l : list num) (a : num) :
  In a l -> In a seen \/ In a (uniqueFrom seen l).
Proof.
  revert seen. induction l as [ | b r IH]; intros seen; simpl; [contradiction | ].
  intros [-> | Hin].
  - destruct (existsb (num_eqb a) seen) eqn:E.
    + left. apply existsb_exists in E as (c & Hc & Heq).
      apply num_eqb_eq in Heq. subst. exact Hc.
    + right. left. reflexivity.
  - destruct (existsb (num_eqb b) seen) eqn:E.
    + apply IH, Hin.
    + destruct (IH (b :: seen) Hin) as [[-> | Hs] | Hu]; auto.
      * right. left. reflexivity.
      * right. right. exact Hu.
Qed.

Lemma unique_in_iff (l : list num) (a : num) : In a (unique l) <-> In a l.
Proof.
  split; [apply unique_in | ].
  intros H. destruct (uniqueFrom_complete [] l a H) as [[] | Hu]. exact Hu.
Qed.

Lemma ascending_NoDup_strict (l : list num) :
  ascending l -> NoDup l -> Sorted Qclt l.
Proof.
  intros Hs Hnd. apply ascending_strong in Hs.
  induction Hs as [ | a r Hr IH Ha]; [constructor | ].
  inversion Hnd as [ | ? ? Hnotin Hnd']; subst.
  constructor; [apply IH, Hnd' | ].
  destruct r as [ | b r']; constructor.
  inversion Ha as [ | ? ? Hab _]; subst.
  destruct (Qcle_lt_or_eq _ _ Hab) as [Hlt | ->]; [exact Hlt | ].
  exfalso. apply Hnotin. left. reflexivity.
Qed.

Lemma polylineBody_strict (thePolyline : Polyline) (g : Geom) :
  Sorted Qclt (polylineBody thePolyline g) /\ NoDup (polylineBody thePolyline g).
Proof.
  unfold polylineBody. cbv zeta.
  assert (Hnd : NoDup (sort (unique (segmentLoop 0 (Polyline_segments thePolyline) g)))).
  { eapply Permutation_NoDup; [apply sort_perm | ]. apply uniqueFrom_NoDup. }
  split; [ | exact Hnd]. apply ascending_NoDup_strict; [apply sort_ascending | exact Hnd].
Qed.

(** X13: for a target that is not a list, [polyline] reports every
    parameter once: the list it returns is strictly ascending and has no
    two equal values (a crossing at the vertex shared by two segments is
    one entry, not two). *)
Theorem polyline_reports_each_parameter_once
  (thePolyline : Polyline) (g : Geom) (ps : list num) :
  isArray g = false ->
  polyline thePolyline g = Ok ps ->
  Sorted Qclt ps /\ NoDup ps.
Proof.
  intros Harr Hps. apply polyline_leaf in Hps.
  - destruct Hps as [-> | ->]; [split; constructor | apply polylineBody_strict].
  - destruct g; try exact I. discriminate.
Qed.

Lemma segmentLoop_complete (segments : list Line) (g : Geom) (i k : nat)
  (edge : Line) (t : num) :
  nth_error segments k = Some edge -> In t (line edge g) ->
  In (num_of_nat (i + k) + t) (segmentLoop i segments g).
Proof.
  revert i k. induction segments as [ | e rest IH]; intros i [ | k]; simpl;
    try discriminate.
  - intros [= ->] Ht. rewrite Nat.add_0_r. apply in_or_app. left.
    apply in_map_iff. eauto.
  - intros Hk Ht. apply in_or_app. right.
    rewrite Nat.add_succ_r. change (S (i + k)) with (S i + k)%nat.
    eapply IH; eassumption.
Qed.

Lemma polylineBody_offsets (thePolyline : Polyline) (g : Geom) (p : num) :
  In p (polylineBody thePolyline g) <-> offsetHit thePolyline g p.
Proof.
  unfold polylineBody, offsetHit. cbv zeta. rewrite sort_in, unique_in_iff. split.
  - intros H. apply segmentLoop_in in H. exact H.
  - intros (i & edge & t & Hi & Ht & ->).
    change i with (0 + i)%nat at 1. eapply segmentLoop_complete; eassumption.
Qed.

(** X14: a parameter of the polyline dispatch is a segment index plus a
    parameter that [line] reports for that segment against the target.
    For a target that is not a list, every returned value is such an
    offset, and the result is either empty (the fast-reject) or all of
    them; a Ray target is never rejected, so its result is all of them. *)
Theorem polyline_parameters_are_offsets
  (thePolyline : Polyline) (g : Geom) (ps : list num) :
  isArray g = false ->
  polyline thePolyline g = Ok ps ->
  (forall p, In p ps -> offsetHit thePolyline g p)
  /\ (ps = [] \/ forall p, offsetHit thePolyline g p -> In p ps)
  /\ (forall r : Ray,
        exists qs, polyline thePolyline (GRay r) = Ok qs
                   /\ forall p, In p qs <-> offsetHit thePolyline (GRay r) p).
Proof.
  intros Harr Hps. apply polyline_leaf in Hps;
    [ | destruct g; try exact I; discriminate].
  split; [ | split].
  - destruct Hps as [-> | ->]; [contradiction | ].
    intros p. apply polylineBody_offsets.
  - destruct Hps as [-> | ->]; [left; reflexivity | right].
    intros p. apply polylineBody_offsets.
  - intros r. eexists. split; [reflexivity | ].
    intros p. apply polylineBody_offsets.
Qed.


End PolylineDispatchFacts.

Module MoreWitnesses.
Import Exact ExactMeasures Scenes MoreScenes.

(** An empty array and a polygon that is no array pass no guard. *)
Lemma array_guards_first_element_witness :
  Utilities.isPolylineArray (C := exact) (Utilities.VArray []) = false
  /\ Utilities.isPolygonArray (Utilities.VPolygon plainSquare) = false
  /\ Utilities.isPointArray (C := exact)
       (Utilities.VArray [Utilities.VPoint (pt 0 0); Utilities.VNumber (int 1)]) = true.
Proof.
  split; [ | split].
  - destruct (@array_guards_first_element exact (Utilities.VArray []))
      as (_ & _ & _ & _ & _ & _ & H & _).
    apply H. left. reflexivity.
  - destruct (@array_guards_first_element exact (Utilities.VPolygon plainSquare))
      as (_ & _ & _ & _ & _ & _ & H & _).
    apply H. right. exact I.
  - destruct (@array_guards_first_element exact
                (Utilities.VArray [Utilities.VPoint (pt 0 0); Utilities.VNumber (int 1)]))
      as (H & _).
    apply H. eauto.
Defined.

(** The point (4,4) is inside the 8x8 square with two holes; the point
    (2,2) is in the first hole, one away from it, and the second hole is
    skipped by its box. *)
Lemma closestPoint_on_closestLoop_witness :
  Polygon_closestPoint twoHoles (pt 4 4) = pt 4 4
  /\ Polygon_closestPoint twoHoles (pt 2 2)
     = Polyline_closestPoint (Polygon_closestLoop twoHoles (pt 2 2)) (pt 2 2)
  /\ Forall (fun l => Point_distanceTo (pt 2 2) (Polygon_closestPoint twoHoles (pt 2 2))
                      <= loopDistance (pt 2 2) l)
            (Polygon_boundary twoHoles :: Polygon_holes twoHoles).
Proof.
  split.
  - destruct (@closestPoint_on_closestLoop exact exactMeasures twoHoles (pt 4 4))
      as (H & _).
    apply H. vm_compute. reflexivity.
  - destruct (@closestPoint_on_closestLoop exact exactMeasures twoHoles (pt 2 2))
      as (_ & _ & H).
    apply H.
    + intros Hin. vm_compute in Hin. discriminate.
    + vm_compute. reflexivity.
Defined.

(** The 4x4 square with its hole goes to two rings and comes back. *)
Lemma Polygon_rings_round_trip_witness :
  List.length (Polygon_asGeoJSON holedSquare) = 2%nat
  /\ Polygon_fromCoords (Polygon_asGeoJSON holedSquare) = Ok holedSquare.
Proof.
  apply (@Polygon_rings_round_trip exact holedSquare).
  - repeat constructor.
  - split; [reflexivity | repeat constructor].
Defined.

Lemma list_target_is_a_bag_witness :
  line crossingLine (GArray [boxTarget; lineTarget])
  = line crossingLine (GArray [lineTarget; boxTarget])
  /\ polyline triangle (GArray [boxTarget; lineTarget])
     = polyline triangle (GArray [lineTarget; boxTarget])
  /\ polyline triangle (GArray [lineTarget]) = polyline triangle lineTarget.
Proof.
  destruct (@list_target_is_a_bag exact crossingLine diameterRay triangle
              [boxTarget; lineTarget] [lineTarget; boxTarget] [pointTarget] lineTarget)
    as (H1 & _ & H3 & _ & _ & _ & H7).
  - apply perm_swap.
  - auto.
Defined.

(** The vertical line x = 1 crosses the triangle's base at 1/4 and its
    hypotenuse at 1 + 3/4. *)
Lemma polyline_reports_each_parameter_once_witness :
  polyline triangle verticalTarget = Ok [frac 1 4; frac 7 4]
  /\ Sorted Qclt [frac 1 4; frac 7 4]
  /\ NoDup [frac 1 4; frac 7 4].
Proof.
  assert (H : polyline triangle verticalTarget = Ok [frac 1 4; frac 7 4])
    by (apply Ok_nums_eq; vm_compute; reflexivity).
  split; [exact H | ].
  apply (@polyline_reports_each_parameter_once exact triangle verticalTarget);
    [reflexivity | exact H].
Defined.

Lemma polyline_parameters_are_offsets_witness :
  offsetHit triangle verticalTarget (frac 1 4)
  /\ offsetHit triangle verticalTarget (frac 7 4).
Proof.
  destruct (@polyline_parameters_are_offsets exact triangle verticalTarget
              [frac 1 4; frac 7 4]) as (H & _).
  - reflexivity.
  - apply Ok_nums_eq. vm_compute. reflexivity.
  - split; apply H; simpl; auto.
Defined.

(** The nested polygon: its hole's box lies inside its boundary's. *)
Lemma sound_rejects_lose_nothing_witness :
  line farLine (GPolygon nestedPolygon)
  = sort (flat_map (linePolyline farLine)
            (Polygon_boundary nestedPolygon :: Polygon_holes nestedPolygon)).
Proof.
  destruct (@sound_rejects_lose_nothing exact farLine nestedPolygon) as (_ & H).
  - vm_compute. reflexivity.
  - vm_compute. reflexivity.
  - exact H.
Defined.


(** A clipping result with an open ring: the union throws the constructor's
    error. *)
Lemma boolean_operations_errors_witness :
  Polygon_union openRingClip plainSquare (InPolygon offsetSquare)
  = Throw (Error "Boundary must be closed to turn into polygon")
  /\ invalidGeometry (Error "Boundary must be closed to turn into polygon").
Proof.
  assert (H : Polygon_union openRingClip plainSquare (InPolygon offsetSquare)
              = Throw (Error "Boundary must be closed to turn into polygon"))
    by reflexivity.
  split; [exact H | ].
  destruct (@boolean_operations_errors exact openRingClip (@Polygon_union exact)
              plainSquare (InPolygon offsetSquare) _ (or_introl eq_refl) H)
    as [[_ [Hx | Hx]] | [Hi _]]; [discriminate | discriminate | exact Hi].
Defined.

End MoreWitnesses.

(* ------------------------------------------------------------------ *)
(** ** The circle solver's order *)


Module CircleOrder.
Import Exact Descending.


End CircleOrder.
